(** * ShopSavvy Data API client (sdk-typescript): a shallow embedding

    The development follows [src/dist/index.mjs]: the class
    [ShopSavvyDataAPI] (constructor, the shared [request] primitive and
    the eleven public operations) and the factory [createShopSavvyClient].

    Conventions.
    - A JavaScript string is a Rocq [string]: the sequence of bytes of its
      UTF-8 encoding (what [URLSearchParams] and [fetch] put on the wire).
    - [undefined] is [None] in an [option]; a missing property and an
      omitted argument are both [None].
    - A JavaScript number is an element of a type of the class [JsNumber],
      which has the three things the client does with one: write a literal,
      test its truthiness and print it.
    - Asynchronous code runs in the monad [M]: a computation takes the
      state of the program (the instance, the pending timers, the aborted
      controllers, the remote end, the trace of effects) and either
      resolves, rejects or stays pending for ever. *)

From Stdlib Require Import Bool Arith ZArith List Ascii String Lia.
From Stdlib Require Import DecimalString.
Import ListNotations.

Local Open Scope list_scope.
Local Open Scope string_scope.

Set Implicit Arguments.

(** ** JavaScript values *)

(** Numbers: IEEE doubles in the runtime.  The client writes the literal
    [3e4], tests [config.timeout || ...] and prints [${this.timeout}]. *)
Class JsNumber (number : Type) : Type := {
  num_lit : Z -> number;
  ToBoolean_num : number -> bool;
  ToString_num : number -> string;
  ToBoolean_lit : forall z : Z, ToBoolean_num (num_lit z) = negb (z =? 0)%Z
}.

(** Integral numbers are an instance, printed in decimal. *)
Definition Z_ToString (z : Z) : string := NilZero.string_of_int (Z.to_int z).

#[export] Instance JsNumber_Z : JsNumber Z := {|
  num_lit := fun z => z;
  ToBoolean_num := fun z => negb (z =? 0)%Z;
  ToString_num := Z_ToString;
  ToBoolean_lit := fun z => eq_refl
|}.

Definition nat_ToString (n : nat) : string := NilZero.string_of_uint (Nat.to_uint n).

(** [ToBoolean] and [ToString] of a string that may be [undefined]. *)
Definition ToBoolean_str (v : option string) : bool :=
  match v with
  | Some s => negb (s =? "")
  | None => false
  end.

Definition ToString_str (v : option string) : string :=
  match v with
  | Some s => s
  | None => "undefined"
  end.

(** [a || b] on strings: [a] when it is truthy, [b] otherwise. *)
Definition or_str (a : option string) (b : string) : string :=
  match a with
  | Some s => if s =? "" then b else s
  | None => b
  end.

(** [Array.prototype.join]: the accumulator [R] starts empty; before every
    element but the first the separator is appended, then the element. *)
Fixpoint join_from (sep : string) (R : string) (first : bool) (l : list string) : string :=
  match l with
  | [] => R
  | x :: l' => join_from sep ((if first then R else R ++ sep) ++ x) false l'
  end.

Definition join (sep : string) (l : list string) : string := join_from sep "" true l.

(** An [Error] object: the two properties the client reads or writes. *)
Record JsError : Type := { name : string; message : string }.

Definition new_Error (msg : string) : JsError := {| name := "Error"; message := msg |}.
Definition new_TypeError (msg : string) : JsError := {| name := "TypeError"; message := msg |}.
Definition AbortError : JsError :=
  {| name := "AbortError"; message := "This operation was aborted" |}.

(** ** Regular expressions

    The fragment the key pattern uses: literals, character ranges,
    sequence, alternation and the [+] quantifier.  The pattern of the
    constructor starts with [^] and ends with [$] and has no flag, so
    [String.prototype.match] returns a match exactly when the whole
    string is in the language: [regex_test] decides that by derivatives. *)
Inductive regex : Type :=
| Void
| Eps
| Lit (c : ascii)
| Range (lo hi : ascii)
| Seq (r1 r2 : regex)
| Alt (r1 r2 : regex)
| Star (r : regex)
| Plus (r : regex).

Fixpoint nullable (r : regex) : bool :=
  match r with
  | Void => false
  | Eps => true
  | Lit _ => false
  | Range _ _ => false
  | Seq r1 r2 => nullable r1 && nullable r2
  | Alt r1 r2 => nullable r1 || nullable r2
  | Star _ => true
  | Plus r => nullable r
  end.

Definition in_range (lo hi c : ascii) : bool :=
  (nat_of_ascii lo <=? nat_of_ascii c)%nat && (nat_of_ascii c <=? nat_of_ascii hi)%nat.

Fixpoint deriv (c : ascii) (r : regex) : regex :=
  match r with
  | Void => Void
  | Eps => Void
  | Lit d => if Ascii.eqb c d then Eps else Void
  | Range lo hi => if in_range lo hi c then Eps else Void
  | Seq r1 r2 =>
      if nullable r1 then Alt (Seq (deriv c r1) r2) (deriv c r2)
      else Seq (deriv c r1) r2
  | Alt r1 r2 => Alt (deriv c r1) (deriv c r2)
  | Star r => Seq (deriv c r) (Star r)
  | Plus r => Seq (deriv c r) (Star r)
  end.

Fixpoint regex_test (r : regex) (s : string) : bool :=
  match s with
  | EmptyString => nullable r
  | String c s' => regex_test (deriv c r) s'
  end.

(** A literal run of characters. *)
Fixpoint Lits (s : string) : regex :=
  match s with
  | EmptyString => Eps
  | String c s' => Seq (Lit c) (Lits s')
  end.

(** [[a-zA-Z0-9]] *)
Definition alnum_class : regex :=
  Alt (Range "a" "z") (Alt (Range "A" "Z") (Range "0" "9")).

(** [/^ss_(live|test)_[a-zA-Z0-9]+$/] *)
Definition api_key_regex : regex :=
  Seq (Lits "ss_")
      (Seq (Alt (Lits "live") (Lits "test"))
           (Seq (Lit "_") (Plus alnum_class))).

(** [str.match(re)] is [null] (falsy) or an array (truthy); [None] is
    [undefined], on which the constructor never calls [match]. *)
Definition String_match (s : string) (r : regex) : bool := regex_test r s.

(** The language of a regular expression, as a relation: what it means
    for a whole string to match. *)
Inductive matches : regex -> string -> Prop :=
| MEps : matches Eps ""
| MLit (c : ascii) : matches (Lit c) (String c "")
| MRange (lo hi c : ascii) : in_range lo hi c = true -> matches (Range lo hi) (String c "")
| MSeq (r1 r2 : regex) (s1 s2 : string) :
    matches r1 s1 -> matches r2 s2 -> matches (Seq r1 r2) (s1 ++ s2)
| MAltL (r1 r2 : regex) (s : string) : matches r1 s -> matches (Alt r1 r2) s
| MAltR (r1 r2 : regex) (s : string) : matches r2 s -> matches (Alt r1 r2) s
| MStarNil (r : regex) : matches (Star r) ""
| MStarApp (r : regex) (s1 s2 : string) :
    matches r s1 -> matches (Star r) s2 -> matches (Star r) (s1 ++ s2)
| MPlus (r : regex) (s1 s2 : string) :
    matches r s1 -> matches (Star r) s2 -> matches (Plus r) (s1 ++ s2).

(** The key format in words: [ss_], then [live] or [test], then [_], then
    one or more ASCII letters or digits, and nothing else. *)
Definition alphanumeric (c : ascii) : bool :=
  let n := nat_of_ascii c in
  ((97 <=? n) && (n <=? 122) || (65 <=? n) && (n <=? 90) || (48 <=? n) && (n <=? 57))%nat.

Fixpoint all_chars (p : ascii -> bool) (s : string) : bool :=
  match s with
  | EmptyString => true
  | String c s' => p c && all_chars p s'
  end.

Definition key_pattern (k : string) : Prop :=
  exists env rest : string,
    (env = "live" \/ env = "test") /\
    k = "ss_" ++ env ++ "_" ++ rest /\
    rest <> "" /\
    all_chars alphanumeric rest = true.

(** A configuration has a well-formed key when the key is there and has
    the format. *)
Definition valid_key (k : option string) : Prop :=
  exists x : string, k = Some x /\ key_pattern x.

(** ** Object literals, [URLSearchParams] and [JSON.stringify]

    An object with string values is the list of its properties in
    insertion order. *)
Definition Obj : Type := list (string * string).

(** Writing a property: in place when the key is there, at the end
    otherwise. *)
Fixpoint obj_set (k v : string) (o : Obj) : Obj :=
  match o with
  | [] => [(k, v)]
  | (k', v') :: o' => if k' =? k then (k', v) :: o' else (k', v') :: obj_set k v o'
  end.

(** [{ ...target, ...src }] *)
Definition spread (target src : Obj) : Obj :=
  fold_left (fun o kv => obj_set (fst kv) (snd kv) o) src target.

(** [v && { key: v }], as spread into a literal: [v] itself when it is
    falsy ([undefined] or the empty string, which spread to nothing), the
    one-property object otherwise. *)
Definition and_prop (key : string) (v : option string) : Obj :=
  match v with
  | Some x => if x =? "" then [] else [(key, x)]
  | None => []
  end.

(** Whether an object has a property of that name. *)
Definition has_key (key : string) (o : Obj) : bool :=
  existsb (fun kv => fst kv =? key) o.

Definition hex_upper (n : nat) : ascii :=
  ascii_of_nat (if (n <? 10)%nat then 48 + n else 55 + n).

Definition hex_lower (n : nat) : ascii :=
  ascii_of_nat (if (n <? 10)%nat then 48 + n else 87 + n).

(** The bytes the form-urlencoded serializer leaves as they are: ASCII
    letters and digits, [*], [-], [.] and [_]. *)
Definition urlencoded_safe (c : ascii) : bool :=
  in_range "a" "z" c || in_range "A" "Z" c || in_range "0" "9" c
  || Ascii.eqb c "*" || Ascii.eqb c "-" || Ascii.eqb c "." || Ascii.eqb c "_".

Definition urlencode_byte (c : ascii) : string :=
  if Ascii.eqb c " " then "+"
  else if urlencoded_safe c then String c ""
  else String "%" (String (hex_upper (nat_of_ascii c / 16))
                          (String (hex_upper (nat_of_ascii c mod 16)) "")).

Fixpoint urlencode (s : string) : string :=
  match s with
  | EmptyString => ""
  | String c s' => urlencode_byte c ++ urlencode s'
  end.

(** [new URLSearchParams(record)]: one entry per property, in order.  A
    string is here the sequence of the bytes of its UTF-8 encoding, which
    a JavaScript string has when it has no lone surrogate; on such a
    string the conversion the constructor applies to names and values
    (it replaces a lone surrogate by U+FFFD) changes nothing. *)
Definition new_URLSearchParams (o : Obj) : list (string * string) := o.

(** One entry as the serializer writes it: name, [=], value. *)
Definition piece (kv : string * string) : string :=
  urlencode (fst kv) ++ "=" ++ urlencode (snd kv).

(** [`${params}`]: the serialized entries, joined with [&]. *)
Definition URLSearchParams_toString (params : list (string * string)) : string :=
  join "&" (map piece params).

(** A character other than [sep]; a character that is neither [&] nor
    [=]. *)
Definition is_not (sep : ascii) (c : ascii) : bool := negb (Ascii.eqb c sep).

Definition plain (c : ascii) : bool := is_not "&" c && is_not "=" c.

(** Reading a query string back, as the receiving end does (the
    form-urlencoded parser): split at [&], drop empty pieces, cut each
    piece at its first [=], turn [+] into a space and decode [%xx]. *)
Fixpoint split_on (sep : ascii) (s : string) : list string :=
  match s with
  | EmptyString => [""]
  | String c s' =>
      if Ascii.eqb c sep then "" :: split_on sep s'
      else match split_on sep s' with
           | x :: l => String c x :: l
           | [] => [String c ""]
           end
  end.

Fixpoint cut_at (sep : ascii) (s : string) : string * string :=
  match s with
  | EmptyString => ("", "")
  | String c s' =>
      if Ascii.eqb c sep then ("", s')
      else let (a, b) := cut_at sep s' in (String c a, b)
  end.

Definition hex_value (c : ascii) : option nat :=
  let n := nat_of_ascii c in
  if ((48 <=? n) && (n <=? 57))%nat then Some (n - 48)
  else if ((65 <=? n) && (n <=? 70))%nat then Some (n - 55)
  else if ((97 <=? n) && (n <=? 102))%nat then Some (n - 87)
  else None.

Fixpoint urldecode (s : string) : string :=
  match s with
  | EmptyString => ""
  | String c s' =>
      if Ascii.eqb c "+" then String " " (urldecode s')
      else if Ascii.eqb c "%" then
        match s' with
        | String h (String l s'') =>
            match hex_value h, hex_value l with
            | Some a, Some b => String (ascii_of_nat (16 * a + b)) (urldecode s'')
            | _, _ => String c (urldecode s')
            end
        | _ => String c (urldecode s')
        end
      else String c (urldecode s')
  end.

Definition parse_query (q : string) : list (string * string) :=
  map (fun part => let (k, v) := cut_at "=" part in (urldecode k, urldecode v))
      (filter (fun part => negb (part =? "")) (split_on "&" q)).

(** What an option contributes when it counts as given: its value, when
    there is one and it is not empty. *)
Definition nonempty (v : option string) : option string :=
  match v with
  | Some x => if x =? "" then None else Some x
  | None => None
  end.

(** The entry of such an option, if it counts as given. *)
Definition given (key : string) (v : option string) : Obj :=
  match nonempty v with
  | Some x => [(key, x)]
  | None => []
  end.

(** How many entries have that name. *)
Definition count_key (key : string) (o : Obj) : nat :=
  List.length (filter (fun kv => fst kv =? key) o).

Definition dquote : ascii := "034"%char.
Definition backslash : ascii := "092"%char.

(** [JSON.stringify] of a string: the two-character escapes, [\u00xx]
    for the other control characters, the rest as it is. *)
Definition JSON_escape_byte (c : ascii) : string :=
  let n := nat_of_ascii c in
  if Ascii.eqb c dquote then String backslash (String dquote "")
  else if Ascii.eqb c backslash then String backslash (String backslash "")
  else if (n =? 8)%nat then String backslash "b"
  else if (n =? 12)%nat then String backslash "f"
  else if (n =? 10)%nat then String backslash "n"
  else if (n =? 13)%nat then String backslash "r"
  else if (n =? 9)%nat then String backslash "t"
  else if (n <? 32)%nat then
    String backslash ("u00" ++ String (hex_lower (n / 16)) (String (hex_lower (n mod 16)) ""))
  else String c "".

Fixpoint JSON_escape (s : string) : string :=
  match s with
  | EmptyString => ""
  | String c s' => JSON_escape_byte c ++ JSON_escape s'
  end.

Definition JSON_quote (s : string) : string :=
  String dquote (JSON_escape s ++ String dquote "").

(** One member as [JSON.stringify] writes it: name, [:], value. *)
Definition member (kv : string * string) : string :=
  JSON_quote (fst kv) ++ ":" ++ JSON_quote (snd kv).

(** [JSON.stringify] of an object whose values are strings. *)
Definition JSON_stringify (o : Obj) : string :=
  "{" ++ join "," (map member o) ++ "}".

(** Reading a body back, as the receiving end does: a JSON object whose
    values are strings, written without white space.  A string ends at
    the first quote that no backslash precedes; an escape [\u00xx] below
    80 is one byte (above, it stands for more than one byte, and the
    writer makes none). *)
Definition prepend (c : ascii) (r : option (string * string)) : option (string * string) :=
  match r with
  | Some (x, rest) => Some (String c x, rest)
  | None => None
  end.

Definition unescape (e : ascii) : option ascii :=
  if Ascii.eqb e dquote then Some dquote
  else if Ascii.eqb e backslash then Some backslash
  else if Ascii.eqb e "/" then Some "/"%char
  else if Ascii.eqb e "b" then Some (ascii_of_nat 8)
  else if Ascii.eqb e "f" then Some (ascii_of_nat 12)
  else if Ascii.eqb e "n" then Some (ascii_of_nat 10)
  else if Ascii.eqb e "r" then Some (ascii_of_nat 13)
  else if Ascii.eqb e "t" then Some (ascii_of_nat 9)
  else None.

Fixpoint JSON_read_string (s : string) : option (string * string) :=
  match s with
  | EmptyString => None
  | String c s' =>
      if Ascii.eqb c dquote then Some ("", s')
      else if Ascii.eqb c backslash then
        match s' with
        | String e s'' =>
            if Ascii.eqb e "u" then
              match s'' with
              | String h1 (String h2 (String h3 (String h4 s4))) =>
                  match hex_value h1, hex_value h2, hex_value h3, hex_value h4 with
                  | Some 0, Some 0, Some a, Some b =>
                      if (16 * a + b <? 128)%nat
                      then prepend (ascii_of_nat (16 * a + b)) (JSON_read_string s4)
                      else None
                  | _, _, _, _ => None
                  end
              | _ => None
              end
            else
              match unescape e with
              | Some x => prepend x (JSON_read_string s'')
              | None => None
              end
        | EmptyString => None
        end
      else if (nat_of_ascii c <? 32)%nat then None
      else prepend c (JSON_read_string s')
  end.

(** The members, from the quote that opens the first name to the brace
    that closes the object; [fuel] bounds their number. *)
Fixpoint JSON_read_members (fuel : nat) (s : string) : option Obj :=
  match fuel with
  | O => None
  | S fuel' =>
      match s with
      | String q s1 =>
          if Ascii.eqb q dquote then
            match JSON_read_string s1 with
            | Some (k, String colon (String q' s2)) =>
                if Ascii.eqb colon ":" && Ascii.eqb q' dquote then
                  match JSON_read_string s2 with
                  | Some (v, String d s3) =>
                      if Ascii.eqb d "," then
                        match JSON_read_members fuel' s3 with
                        | Some o => Some ((k, v) :: o)
                        | None => None
                        end
                      else if Ascii.eqb d "}" then
                        match s3 with
                        | EmptyString => Some [(k, v)]
                        | String _ _ => None
                        end
                      else None
                  | _ => None
                  end
                else None
            | _ => None
            end
          else None
      | EmptyString => None
      end
  end.

Definition JSON_parse_object (s : string) : option Obj :=
  match s with
  | String b s' =>
      if Ascii.eqb b "{" then
        if s' =? "}" then Some [] else JSON_read_members (String.length s') s'
      else None
  | EmptyString => None
  end.

(** How an awaited computation ends: it resolves, rejects, or is pending
    for ever. *)
Inductive Outcome (A : Type) : Type :=
| Resolved (a : A)
| Rejected (e : JsError)
| Pending.

Arguments Rejected {A} e.
Arguments Pending {A}.

Section Client.

Context {number : Type} `{JsNumber number}.

(** [a || b] on numbers. *)
Definition or_num (a : option number) (b : number) : number :=
  match a with
  | Some n => if ToBoolean_num n then n else b
  | None => b
  end.

Definition ToString_optnum (v : option number) : string :=
  match v with
  | Some n => ToString_num n
  | None => "undefined"
  end.

(** ** Parsed JSON

    What [response.json()] resolves with.  An object is the list of its
    own properties, in order, with distinct keys. *)
#[warnings="-register-all"] Inductive json : Type :=
| JNull
| JBool (b : bool)
| JNum (n : number)
| JStr (s : string)
| JArr (items : list json)
| JObj (fields : list (string * json)).

Fixpoint lookup (A : Type) (key : string) (fields : list (string * A)) : option A :=
  match fields with
  | [] => None
  | (k, v) :: rest => if k =? key then Some v else lookup key rest
  end.

Definition ToBoolean (v : option json) : bool :=
  match v with
  | None => false
  | Some JNull => false
  | Some (JBool b) => b
  | Some (JNum n) => ToBoolean_num n
  | Some (JStr s) => negb (s =? "")
  | Some (JArr _) => true
  | Some (JObj _) => true
  end.

(** The results of a list of conversions, when none of them throws. *)
Fixpoint all_results (A : Type) (l : list (option A)) : option (list A) :=
  match l with
  | [] => Some []
  | Some a :: l' => option_map (cons a) (all_results l')
  | None :: l' => None
  end.

(** [ToString], with [None] where it throws.  An array prints as the
    comma-join of its elements, with [null] elements empty.  An object is
    converted by its [toString]: a parsed object has the one of
    [Object.prototype], which gives [[object Object]], unless it has an
    own property of that name; that one is a parsed value, which cannot
    be called, and with it the conversion throws a [TypeError]. *)
Fixpoint ToString (v : json) : option string :=
  match v with
  | JNull => Some "null"
  | JBool b => Some (if b then "true" else "false")
  | JNum n => Some (ToString_num n)
  | JStr s => Some s
  | JArr items =>
      option_map (join ",")
        (all_results (map (fun x => match x with JNull => Some "" | _ => ToString x end) items))
  | JObj fields =>
      match lookup "toString" fields with
      | Some _ => None
      | None => Some "[object Object]"
      end
  end.

(** ** The program state *)

(** The only callback the client schedules: [() => controller.abort()]. *)
Inductive Callback : Type :=
| AbortCallback (controller : nat).

Record Timer : Type := {
  timer_id : nat;
  timer_delay : option number;
  timer_callback : Callback
}.

(** The argument of [fetch]: [url] and the members of the init object. *)
Record Request : Type := {
  req_url : string;
  req_method : option string;
  req_body : option string;
  req_headers : list (string * string);
  req_signal : option nat
}.

(** What reading the body as JSON gives: a value, a rejection (a
    [SyntaxError] for a body that is not JSON), or no end of the body. *)
Inductive Body : Type :=
| BodyJson (v : json)
| BodyInvalid (e : JsError)
| BodyStalls.

Record Reply : Type := {
  status : nat;
  statusText : string;
  body : Body
}.

(** A [Response] is the reply of the remote end, tied to the signal of
    the request it answers. *)
Record Response : Type := {
  reply : Reply;
  resp_signal : option nat
}.

(** [response.ok]: the status is in the range 200 to 299. *)
Definition reply_ok (r : Reply) : bool :=
  (200 <=? status r)%nat && (status r <=? 299)%nat.

Definition Response_ok (r : Response) : bool := reply_ok (reply r).

(** What the transport does with a request before any timer fires: it
    answers, it fails (a network error), or nothing comes. *)
Inductive Transport : Type :=
| Responds (r : Reply)
| Fails (e : JsError)
| Silent.

Inductive Event : Type :=
| EvSetTimeout (id : nat) (delay : option number)
| EvClearTimeout (id : nat)
| EvTimerFired (id : nat)
| EvAbort (controller : nat)
| EvFetch (req : Request).

(** The instance: an object whose three properties the constructor
    assigns; [None] is a property that is [undefined]. *)
Record ShopSavvyDataAPI : Type := {
  apiKey : option string;
  baseUrl : option string;
  timeout : option number
}.

Definition blank : ShopSavvyDataAPI :=
  {| apiKey := None; baseUrl := None; timeout := None |}.

Record State : Type := {
  this : ShopSavvyDataAPI;
  network : Request -> Transport;
  timers : list Timer;
  aborted : list nat;
  next_handle : nat;
  trace : list Event
}.

Definition set_this (o : ShopSavvyDataAPI) (s : State) : State :=
  {| this := o; network := network s; timers := timers s;
     aborted := aborted s; next_handle := next_handle s; trace := trace s |}.

Definition set_timers (ts : list Timer) (s : State) : State :=
  {| this := this s; network := network s; timers := ts;
     aborted := aborted s; next_handle := next_handle s; trace := trace s |}.

Definition set_aborted (l : list nat) (s : State) : State :=
  {| this := this s; network := network s; timers := timers s;
     aborted := l; next_handle := next_handle s; trace := trace s |}.

Definition bump_handle (s : State) : State :=
  {| this := this s; network := network s; timers := timers s;
     aborted := aborted s; next_handle := S (next_handle s); trace := trace s |}.

Definition log (e : Event) (s : State) : State :=
  {| this := this s; network := network s; timers := timers s;
     aborted := aborted s; next_handle := next_handle s; trace := (trace s ++ [e])%list |}.

(** ** The monad of asynchronous code *)

Definition M (A : Type) : Type := State -> Outcome A * State.

Definition ret (A : Type) (a : A) : M A := fun s => (Resolved a, s).

Definition throw {A : Type} (e : JsError) : M A := fun s => (Rejected e, s).

Definition bind (A B : Type) (m : M A) (k : A -> M B) : M B :=
  fun s =>
    match m s with
    | (Resolved a, s') => k a s'
    | (Rejected e, s') => (Rejected e, s')
    | (Pending, s') => (Pending, s')
    end.

(** [try { body } catch (error) { handler }] *)
Definition try_catch (A : Type) (body : M A) (handler : JsError -> M A) : M A :=
  fun s =>
    match body s with
    | (Rejected e, s') => handler e s'
    | r => r
    end.

Definition get_this : M ShopSavvyDataAPI := fun s => (Resolved (this s), s).

Notation "x <- m ;; k" := (bind m (fun x => k))
  (at level 61, m at next level, right associativity).
Notation "m ;;; k" := (bind m (fun _ => k))
  (at level 61, right associativity).

(** ** Timers, abort controllers and the transport *)

(** [new AbortController()]: a fresh controller, named by a handle; its
    signal has the same name. *)
Definition new_AbortController : M nat :=
  fun s => (Resolved (next_handle s), bump_handle s).

Definition signal_aborted (sig : option nat) (s : State) : bool :=
  match sig with
  | Some c => existsb (Nat.eqb c) (aborted s)
  | None => false
  end.

(** [controller.abort()]: nothing on a controller that has aborted. *)
Definition abort (c : nat) (s : State) : State :=
  if existsb (Nat.eqb c) (aborted s) then s
  else log (EvAbort c) (set_aborted (c :: aborted s) s).

Definition run_callback (cb : Callback) (s : State) : State :=
  match cb with
  | AbortCallback c => abort c s
  end.

(** [setTimeout(callback, delay)] returns the handle of a pending timer. *)
Definition setTimeout (cb : Callback) (delay : option number) : M nat :=
  fun s =>
    let id := next_handle s in
    let t := {| timer_id := id; timer_delay := delay; timer_callback := cb |} in
    (Resolved id, log (EvSetTimeout id delay) (bump_handle (set_timers (timers s ++ [t])%list s))).

(** [clearTimeout(id)] removes the timer, if it is still pending. *)
Definition clearTimeout (id : nat) : M unit :=
  fun s =>
    (Resolved tt,
     log (EvClearTimeout id)
         (set_timers (filter (fun t => negb (timer_id t =? id)%nat) (timers s)) s)).

(** When the code waits for something that never comes, the event loop
    goes on: every pending timer fires and runs its callback. *)
Fixpoint fire (ts : list Timer) (s : State) : State :=
  match ts with
  | [] => s
  | t :: ts' => fire ts' (run_callback (timer_callback t) (log (EvTimerFired (timer_id t)) s))
  end.

Definition run_timers (s : State) : State := fire (timers s) (set_timers [] s).

(** Waiting on an operation that the signal [sig] can abort and that does
    not settle by itself. *)
Definition wait_for_abort {A : Type} (sig : option nat) : M A :=
  fun s =>
    let s' := run_timers s in
    if signal_aborted sig s' then (Rejected AbortError, s') else (Pending, s').

(** [await fetch(url, init)] *)
Definition fetch (req : Request) : M Response :=
  fun s =>
    let s1 := log (EvFetch req) s in
    if signal_aborted (req_signal req) s1 then (Rejected AbortError, s1)
    else
      match network s1 req with
      | Responds r => (Resolved {| reply := r; resp_signal := req_signal req |}, s1)
      | Fails e => (Rejected e, s1)
      | Silent => wait_for_abort (req_signal req) s1
      end.

(** [await response.json()] *)
Definition Response_json (r : Response) : M json :=
  match body (reply r) with
  | BodyJson v => ret v
  | BodyInvalid e => throw e
  | BodyStalls => wait_for_abort (resp_signal r)
  end.

(** [data.error]: reading a property of [null] throws; a string, a number,
    a boolean and an array have no property of that name. *)
Definition get_error (data : json) : M (option json) :=
  match data with
  | JNull => throw (new_TypeError "Cannot read properties of null (reading 'error')")
  | JObj fields => ret (lookup "error" fields)
  | _ => ret None
  end.

(** [v || fallback] passed to [new Error(...)], which takes [ToString] of
    it: [None] where that conversion throws. *)
Definition or_message (v : option json) (fallback : string) : option string :=
  match v with
  | Some x => if ToBoolean v then ToString x else Some fallback
  | None => Some fallback
  end.

(** [new Error(v)] for a message [v] under conversion: the new error, or
    the [TypeError] that the conversion throws. *)
Definition new_Error_of (m : option string) : M JsError :=
  match m with
  | Some x => ret (new_Error x)
  | None => throw (new_TypeError "Cannot convert object to primitive value")
  end.

(** ** The class [ShopSavvyDataAPI] *)

Record ShopSavvyConfig : Type := {
  config_apiKey : option string;
  config_baseUrl : option string;
  config_timeout : option number
}.

(** The three assignments [this.x = ...] of the constructor. *)
Definition assign_apiKey (v : option string) : M unit :=
  fun s => (Resolved tt,
            set_this {| apiKey := v; baseUrl := baseUrl (this s); timeout := timeout (this s) |} s).

Definition assign_baseUrl (v : option string) : M unit :=
  fun s => (Resolved tt,
            set_this {| apiKey := apiKey (this s); baseUrl := v; timeout := timeout (this s) |} s).

Definition assign_timeout (v : option number) : M unit :=
  fun s => (Resolved tt,
            set_this {| apiKey := apiKey (this s); baseUrl := baseUrl (this s); timeout := v |} s).

Definition constructor (config : ShopSavvyConfig) : M unit :=
  assign_apiKey (config_apiKey config) ;;;
  assign_baseUrl (Some (or_str (config_baseUrl config) "https://api.shopsavvy.com/v1")) ;;;
  assign_timeout (Some (or_num (config_timeout config) (num_lit 30000))) ;;;
  self <- get_this ;;
  if negb (ToBoolean_str (apiKey self)) then
    throw (new_Error "API key is required. Get one at https://shopsavvy.com/data")
  else if negb (String_match (ToString_str (apiKey self)) api_key_regex) then
    throw (new_Error "Invalid API key format. API keys should start with ss_live_ or ss_test_")
  else ret tt.

(** [new ShopSavvyDataAPI(config)]: the constructor runs on a fresh
    object, which is the value of the expression. *)
Definition new_ShopSavvyDataAPI (config : ShopSavvyConfig) : M ShopSavvyDataAPI :=
  fun s => (constructor config ;;; get_this) (set_this blank s).

Definition createShopSavvyClient (config : ShopSavvyConfig) : M ShopSavvyDataAPI :=
  new_ShopSavvyDataAPI config.

(** The second argument of [request]; [{}] by default. *)
Record RequestInit : Type := {
  init_method : option string;
  init_body : option string;
  init_headers : option Obj
}.

Definition no_init : RequestInit :=
  {| init_method := None; init_body := None; init_headers := None |}.

Definition default_headers (self : ShopSavvyDataAPI) : Obj :=
  [ ("Authorization", "Bearer " ++ ToString_str (apiKey self));
    ("Content-Type", "application/json");
    ("User-Agent", "ShopSavvy-TypeScript-SDK/1.0.0") ].

(** The argument of [fetch] in [request]: the members of [options], then
    the merged headers and the signal. *)
Definition fetch_arg (self : ShopSavvyDataAPI) (url : string) (options : RequestInit)
    (controller : nat) : Request :=
  {| req_url := url;
     req_method := init_method options;
     req_body := init_body options;
     req_headers :=
       spread (default_headers self)
              (match init_headers options with Some h => h | None => [] end);
     req_signal := Some controller |}.

Definition request (endpoint : string) (options : RequestInit) : M json :=
  self <- get_this ;;
  let url := ToString_str (baseUrl self) ++ endpoint in
  controller <- new_AbortController ;;
  timeoutId <- setTimeout (AbortCallback controller) (timeout self) ;;
  try_catch
    (self <- get_this ;;
     response <- fetch (fetch_arg self url options controller) ;;
     clearTimeout timeoutId ;;;
     data <- Response_json response ;;
     if negb (Response_ok response) then
       err <- get_error data ;;
       e <- new_Error_of
              (or_message err
                 ("HTTP " ++ nat_ToString (status (reply response)) ++ ": "
                          ++ statusText (reply response))) ;;
       throw e
     else ret data)
    (fun error =>
       clearTimeout timeoutId ;;;
       if name error =? "AbortError" then
         self <- get_this ;;
         throw (new_Error ("Request timeout after " ++ ToString_optnum (timeout self) ++ "ms"))
       else throw error).

(** The [options] argument of the public operations; [{}] by default. *)
Record Options : Type := {
  retailer : option string;
  format : option string
}.

Definition no_options : Options := {| retailer := None; format := None |}.

Definition getProductDetails_params (identifier : string) (options : Options) :=
  new_URLSearchParams
    (spread [("identifier", identifier)] (and_prop "format" (format options))).

Definition getProductDetails (identifier : string) (options : Options) : M json :=
  let params := getProductDetails_params identifier options in
  request ("/products/details?" ++ URLSearchParams_toString params) no_init.

Definition getProductDetailsBatch_params (identifiers : list string) (options : Options) :=
  new_URLSearchParams
    (spread [("identifiers", join "," identifiers)] (and_prop "format" (format options))).

Definition getProductDetailsBatch (identifiers : list string) (options : Options) : M json :=
  let params := getProductDetailsBatch_params identifiers options in
  request ("/products/details?" ++ URLSearchParams_toString params) no_init.

Definition getCurrentOffers_params (identifier : string) (options : Options) :=
  new_URLSearchParams
    (spread (spread [("identifier", identifier)] (and_prop "retailer" (retailer options)))
            (and_prop "format" (format options))).

Definition getCurrentOffers (identifier : string) (options : Options) : M json :=
  let params := getCurrentOffers_params identifier options in
  request ("/products/offers?" ++ URLSearchParams_toString params) no_init.

Definition getCurrentOffersBatch_params (identifiers : list string) (options : Options) :=
  new_URLSearchParams
    (spread (spread [("identifiers", join "," identifiers)]
                    (and_prop "retailer" (retailer options)))
            (and_prop "format" (format options))).

Definition getCurrentOffersBatch (identifiers : list string) (options : Options) : M json :=
  let params := getCurrentOffersBatch_params identifiers options in
  request ("/products/offers?" ++ URLSearchParams_toString params) no_init.

Definition getPriceHistory_params (identifier startDate endDate : string) (options : Options) :=
  new_URLSearchParams
    (spread (spread [("identifier", identifier); ("start_date", startDate); ("end_date", endDate)]
                    (and_prop "retailer" (retailer options)))
            (and_prop "format" (format options))).

Definition getPriceHistory (identifier startDate endDate : string) (options : Options) : M json :=
  let params := getPriceHistory_params identifier startDate endDate options in
  request ("/products/history?" ++ URLSearchParams_toString params) no_init.

Definition scheduleProductMonitoring_body (identifier frequency : string) (options : Options) : Obj :=
  spread [("identifier", identifier); ("frequency", frequency)]
         (and_prop "retailer" (retailer options)).

Definition scheduleProductMonitoring (identifier frequency : string) (options : Options) : M json :=
  request "/products/schedule"
    {| init_method := Some "POST";
       init_body := Some (JSON_stringify (scheduleProductMonitoring_body identifier frequency options));
       init_headers := None |}.

Definition scheduleProductMonitoringBatch_body
    (identifiers : list string) (frequency : string) (options : Options) : Obj :=
  spread [("identifiers", join "," identifiers); ("frequency", frequency)]
         (and_prop "retailer" (retailer options)).

Definition scheduleProductMonitoringBatch
    (identifiers : list string) (frequency : string) (options : Options) : M json :=
  request "/products/schedule"
    {| init_method := Some "POST";
       init_body :=
         Some (JSON_stringify (scheduleProductMonitoringBatch_body identifiers frequency options));
       init_headers := None |}.

Definition getScheduledProducts : M json := request "/products/scheduled" no_init.

Definition removeProductFromSchedule_body (identifier : string) : Obj :=
  [("identifier", identifier)].

Definition removeProductFromSchedule (identifier : string) : M json :=
  request "/products/schedule"
    {| init_method := Some "DELETE";
       init_body := Some (JSON_stringify (removeProductFromSchedule_body identifier));
       init_headers := None |}.

Definition removeProductsFromSchedule_body (identifiers : list string) : Obj :=
  [("identifiers", join "," identifiers)].

Definition removeProductsFromSchedule (identifiers : list string) : M json :=
  request "/products/schedule"
    {| init_method := Some "DELETE";
       init_body := Some (JSON_stringify (removeProductsFromSchedule_body identifiers));
       init_headers := None |}.

Definition getUsage : M json := request "/usage" no_init.

(** A call of one of the eleven public operations, with its arguments. *)
Inductive Call : Type :=
| GetProductDetails (identifier : string) (options : Options)
| GetProductDetailsBatch (identifiers : list string) (options : Options)
| GetCurrentOffers (identifier : string) (options : Options)
| GetCurrentOffersBatch (identifiers : list string) (options : Options)
| GetPriceHistory (identifier startDate endDate : string) (options : Options)
| ScheduleProductMonitoring (identifier frequency : string) (options : Options)
| ScheduleProductMonitoringBatch (identifiers : list string) (frequency : string) (options : Options)
| GetScheduledProducts
| RemoveProductFromSchedule (identifier : string)
| RemoveProductsFromSchedule (identifiers : list string)
| GetUsage.

Definition perform (c : Call) : M json :=
  match c with
  | GetProductDetails identifier options => getProductDetails identifier options
  | GetProductDetailsBatch identifiers options => getProductDetailsBatch identifiers options
  | GetCurrentOffers identifier options => getCurrentOffers identifier options
  | GetCurrentOffersBatch identifiers options => getCurrentOffersBatch identifiers options
  | GetPriceHistory identifier startDate endDate options =>
      getPriceHistory identifier startDate endDate options
  | ScheduleProductMonitoring identifier frequency options =>
      scheduleProductMonitoring identifier frequency options
  | ScheduleProductMonitoringBatch identifiers frequency options =>
      scheduleProductMonitoringBatch identifiers frequency options
  | GetScheduledProducts => getScheduledProducts
  | RemoveProductFromSchedule identifier => removeProductFromSchedule identifier
  | RemoveProductsFromSchedule identifiers => removeProductsFromSchedule identifiers
  | GetUsage => getUsage
  end.

(** A caller's use of a client: calls made one after the other, each
    followed to its end, whatever that end is. *)
Fixpoint run_calls (calls : list Call) (s : State) : State :=
  match calls with
  | [] => s
  | c :: calls' => run_calls calls' (snd (perform c s))
  end.

(** The errors of [request]. *)
Definition timeout_error (self : ShopSavvyDataAPI) : JsError :=
  new_Error ("Request timeout after " ++ ToString_optnum (timeout self) ++ "ms").

Definition status_line (r : Reply) : string :=
  "HTTP " ++ nat_ToString (status r) ++ ": " ++ statusText r.

(** The two errors of the constructor. *)
Definition key_required : JsError :=
  new_Error "API key is required. Get one at https://shopsavvy.com/data".

Definition key_invalid : JsError :=
  new_Error "Invalid API key format. API keys should start with ss_live_ or ss_test_".

Definition configuration_error (e : JsError) : Prop := e = key_required \/ e = key_invalid.

(** Handles are handed out in increasing order: an aborted controller and
    the controller of a pending timer's callback were created before. *)
Definition handles_ok (s : State) : Prop :=
  (forall c, In c (aborted s) -> c < next_handle s) /\
  (forall t, In t (timers s) ->
     match timer_callback t with AbortCallback c => c < next_handle s end).

(** The state a program starts in: no instance, nothing pending. *)
Definition initial (net : Request -> Transport) : State :=
  {| this := blank; network := net; timers := []; aborted := [];
     next_handle := 0; trace := [] |}.

(** ** What the proofs speak of

    Functions of the state and of the transport that say, without the
    monad, what the constructor and [request] do. *)

(** The instance the constructor builds from a configuration. *)
Definition instance_of (config : ShopSavvyConfig) : ShopSavvyDataAPI :=
  {| apiKey := config_apiKey config;
     baseUrl := Some (or_str (config_baseUrl config) "https://api.shopsavvy.com/v1");
     timeout := Some (or_num (config_timeout config) (num_lit 30000)) |}.

(** The error thrown on a reply outside the success range, from the
    parsed body. *)
Definition status_error (r : Reply) (data : json) : JsError :=
  match data with
  | JNull => new_TypeError "Cannot read properties of null (reading 'error')"
  | JObj fields =>
      match or_message (lookup "error" fields) (status_line r) with
      | Some m => new_Error m
      | None => new_TypeError "Cannot convert object to primitive value"
      end
  | _ => new_Error (status_line r)
  end.

(** What the [catch] block throws for the error it caught. *)
Definition rethrown (self : ShopSavvyDataAPI) (e : JsError) : JsError :=
  if name e =? "AbortError" then timeout_error self else e.

(** The end of a call, from what the transport does with its request. *)
Definition request_result (self : ShopSavvyDataAPI) (t : Transport) : Outcome json :=
  match t with
  | Responds r =>
      match body r with
      | BodyJson data => if reply_ok r then Resolved data else Rejected (status_error r data)
      | BodyInvalid e => Rejected (rethrown self e)
      | BodyStalls => Pending
      end
  | Fails e => Rejected (rethrown self e)
  | Silent => Rejected (timeout_error self)
  end.

(** The request that [request] hands to [fetch] in state [s]. *)
Definition request_sent (endpoint : string) (options : RequestInit) (s : State) : Request :=
  fetch_arg (this s) (ToString_str (baseUrl (this s)) ++ endpoint) options (next_handle s).

(** The state when [fetch] has been called: a fresh controller, the
    timer armed, the request on its way. *)
Definition sent (endpoint : string) (options : RequestInit) (s : State) : State :=
  let n := next_handle s in
  let t := {| timer_id := S n; timer_delay := timeout (this s);
              timer_callback := AbortCallback n |} in
  log (EvFetch (request_sent endpoint options s))
      (log (EvSetTimeout (S n) (timeout (this s)))
           (bump_handle (set_timers (timers s ++ [t])%list (bump_handle s)))).

(** The state after [clearTimeout(id)]. *)
Definition cleared (id : nat) (s : State) : State := snd (clearTimeout id s).

(** The state a call leaves, from what the transport does with its
    request: the timer is cleared once when the body is read and returned,
    twice when the [try] block throws after the reply, once in the [catch]
    block when [fetch] rejects. *)
Definition request_final (endpoint : string) (options : RequestInit) (s : State) : State :=
  let id := S (next_handle s) in
  let s3 := sent endpoint options s in
  match network s (request_sent endpoint options s) with
  | Responds r =>
      match body r with
      | BodyJson data => if reply_ok r then cleared id s3 else cleared id (cleared id s3)
      | BodyInvalid e => cleared id (cleared id s3)
      | BodyStalls => run_timers (cleared id s3)
      end
  | Fails e => cleared id s3
  | Silent => cleared id (run_timers s3)
  end.

(** A computation keeps a property of the state when the state it
    leaves has the property whenever the state it starts in has it. *)
Definition keeps (I : State -> Prop) (A : Type) (m : M A) : Prop :=
  forall s, I s -> I (snd (m s)).

(** [handles_ok] with the bound apart from the counter. *)
Definition bounded (k : nat) (s : State) : Prop :=
  (forall c, In c (aborted s) -> c < k) /\
  (forall t, In t (timers s) -> match timer_callback t with AbortCallback c => c < k end).

(** The [error] property of a parsed body that is not [null]. *)
Definition error_of (data : json) : option json :=
  match data with
  | JObj fields => lookup "error" fields
  | _ => None
  end.

End Client.

Notation "x <- m ;; k" := (bind m (fun x => k))
  (at level 61, m at next level, right associativity).
Notation "m ;;; k" := (bind m (fun _ => k))
  (at level 61, right associativity).

(** ** Examples

    A client made with the key [ss_test_abc123] and a timeout of 50 ms,
    numbers being integers, against a transport that gives every request
    the same treatment. *)

Definition example_config : @ShopSavvyConfig Z :=
  {| config_apiKey := Some "ss_test_abc123"; config_baseUrl := None;
     config_timeout := Some 50%Z |}.

Definition example_state (net : Request -> @Transport Z) : @State Z :=
  snd (createShopSavvyClient example_config (initial net)).

Definition answers (r : @Reply Z) : Request -> @Transport Z := fun _ => Responds r.

Definition never_answers : Request -> @Transport Z := fun _ => Silent.

Definition test_product : @json Z :=
  JObj [("success", JBool true);
        ("data", JObj [("product_id", JStr "123"); ("name", JStr "Test Product")])].

Definition failed_envelope : @json Z :=
  JObj [("success", JBool false); ("data", JNull); ("message", JStr "No offers")].

Definition reply_200 (data : @json Z) : @Reply Z :=
  {| status := 200; statusText := "OK"; body := BodyJson data |}.

Definition reply_404 (data : @json Z) : @Reply Z :=
  {| status := 404; statusText := "Not Found"; body := BodyJson data |}.

(** ** The specification where it says more than the code does

    Three sentences of the specification, as they are worded. *)

(** C2 as the specification has it, on one call: whatever string [X] the
    [error] of the body is, the message of the rejection is [X]. *)
Definition error_field_is_message (endpoint : string) (options : RequestInit) (s : @State Z) : Prop :=
  forall (r : @Reply Z) fields X,
    network s (request_sent endpoint options s) = Responds r ->
    (status r < 200 \/ 299 < status r)%nat ->
    body r = BodyJson (JObj fields) ->
    lookup "error" fields = Some (JStr X) ->
    exists e, fst (request endpoint options s) = Rejected e /\ message e = X.

(** C5 as the specification has it, for one option: its key is in the
    parameters exactly when the caller supplied the option. *)
Definition included_iff_supplied (key : string) (v : option string) (o : Obj) : Prop :=
  has_key key o = true <-> v <> None.

(** C6 as the specification has it, on one query string: the identifier
    once, and the key of an option exactly when the caller supplied it. *)
Definition query_as_supplied (identifier : string) (options : Options) (q : string) : Prop :=
  count_key "identifier" (parse_query q) = 1 /\
  lookup "identifier" (parse_query q) = Some identifier /\
  (has_key "retailer" (parse_query q) = true <-> retailer options <> None) /\
  (has_key "format" (parse_query q) = true <-> format options <> None).

(** ** The operations as a table

    The path and the second argument that each operation hands to
    [request], and from the source the method and the route it names. *)

Definition call_endpoint (c : Call) : string :=
  match c with
  | GetProductDetails identifier options =>
      "/products/details?"
        ++ URLSearchParams_toString (getProductDetails_params identifier options)
  | GetProductDetailsBatch identifiers options =>
      "/products/details?"
        ++ URLSearchParams_toString (getProductDetailsBatch_params identifiers options)
  | GetCurrentOffers identifier options =>
      "/products/offers?"
        ++ URLSearchParams_toString (getCurrentOffers_params identifier options)
  | GetCurrentOffersBatch identifiers options =>
      "/products/offers?"
        ++ URLSearchParams_toString (getCurrentOffersBatch_params identifiers options)
  | GetPriceHistory identifier startDate endDate options =>
      "/products/history?"
        ++ URLSearchParams_toString (getPriceHistory_params identifier startDate endDate options)
  | ScheduleProductMonitoring _ _ _ => "/products/schedule"
  | ScheduleProductMonitoringBatch _ _ _ => "/products/schedule"
  | GetScheduledProducts => "/products/scheduled"
  | RemoveProductFromSchedule _ => "/products/schedule"
  | RemoveProductsFromSchedule _ => "/products/schedule"
  | GetUsage => "/usage"
  end.

Definition call_options (c : Call) : RequestInit :=
  match c with
  | ScheduleProductMonitoring identifier frequency options =>
      {| init_method := Some "POST";
         init_body :=
           Some (JSON_stringify (scheduleProductMonitoring_body identifier frequency options));
         init_headers := None |}
  | ScheduleProductMonitoringBatch identifiers frequency options =>
      {| init_method := Some "POST";
         init_body :=
           Some (JSON_stringify
                   (scheduleProductMonitoringBatch_body identifiers frequency options));
         init_headers := None |}
  | RemoveProductFromSchedule identifier =>
      {| init_method := Some "DELETE";
         init_body := Some (JSON_stringify (removeProductFromSchedule_body identifier));
         init_headers := None |}
  | RemoveProductsFromSchedule identifiers =>
      {| init_method := Some "DELETE";
         init_body := Some (JSON_stringify (removeProductsFromSchedule_body identifiers));
         init_headers := None |}
  | _ => no_init
  end.

(** The method an operation names ([None]: none is named, and [fetch]
    sends a GET), its route, and whether a query string follows. *)
Definition route (c : Call) : option string * string * bool :=
  match c with
  | GetProductDetails _ _ => (None, "/products/details", true)
  | GetProductDetailsBatch _ _ => (None, "/products/details", true)
  | GetCurrentOffers _ _ => (None, "/products/offers", true)
  | GetCurrentOffersBatch _ _ => (None, "/products/offers", true)
  | GetPriceHistory _ _ _ _ => (None, "/products/history", true)
  | ScheduleProductMonitoring _ _ _ => (Some "POST", "/products/schedule", false)
  | ScheduleProductMonitoringBatch _ _ _ => (Some "POST", "/products/schedule", false)
  | GetScheduledProducts => (None, "/products/scheduled", false)
  | RemoveProductFromSchedule _ => (Some "DELETE", "/products/schedule", false)
  | RemoveProductsFromSchedule _ => (Some "DELETE", "/products/schedule", false)
  | GetUsage => (None, "/usage", false)
  end.

(** The characters a serialized query string is made of. *)
Definition query_char (c : ascii) : bool :=
  urlencoded_safe c || Ascii.eqb c "+" || Ascii.eqb c "%" || Ascii.eqb c "=" || Ascii.eqb c "&".

(** The requests among the events of a trace, in order. *)
Fixpoint fetches (number : Type) (l : list (@Event number)) : list Request :=
  match l with
  | [] => []
  | EvFetch req :: l' => req :: fetches l'
  | _ :: l' => fetches l'
  end.

(** The events that lead from the trace of [s] to the trace of [x] have
    the requests [reqs] among them, in this order. *)
Definition adds (number : Type) (s x : @State number) (reqs : list Request) : Prop :=
  exists l : list (@Event number), trace x = (trace s ++ l)%list /\ fetches l = reqs.

(** The state in which [request] calls [fetch]: the one that its lines
    before the [try] block leave, a controller made and the timer set. *)
Definition before_fetch (number : Type) (s : @State number) : @State number :=
  snd ((controller <- new_AbortController ;;
        setTimeout (AbortCallback controller) (timeout (this s))) s).

(** A transport that never answers a request for the usage and answers
    every other request with the test product. *)
Definition slow_usage : Request -> @Transport Z :=
  fun req =>
    if req_url req =? "https://api.shopsavvy.com/v1/usage" then Silent
    else Responds (reply_200 test_product).

(** * Properties *)

(** ** Strings *)

Lemma append_nil_r (s : string) : s ++ "" = s.
Proof. induction s as [|c s IH]; simpl; [reflexivity | now rewrite IH]. Qed.

Lemma append_assoc (s1 s2 s3 : string) : (s1 ++ s2) ++ s3 = s1 ++ (s2 ++ s3).
Proof. induction s1 as [|c s1 IH]; simpl; [reflexivity | now rewrite IH]. Qed.

Lemma append_eq_nil (s1 s2 : string) : s1 ++ s2 = "" -> s1 = "" /\ s2 = "".
Proof. destruct s1; simpl; [auto | discriminate]. Qed.

(** ** Regular expressions: the matcher decides the language *)

Ltac inv H := inversion H; subst; clear H.

Ltac split_nil :=
  match goal with
  | E : (_ ++ _)%string = EmptyString |- _ =>
      let E1 := fresh in let E2 := fresh in
      destruct (append_eq_nil _ _ E) as [E1 E2]; subst
  | E : EmptyString = (_ ++ _)%string |- _ =>
      let E1 := fresh in let E2 := fresh in
      symmetry in E; destruct (append_eq_nil _ _ E) as [E1 E2]; subst
  end.

(** Splits [s1 ++ s2 = String c s] on whether [s1] is empty. *)
Ltac split_cons :=
  match goal with
  | E : (?s1 ++ _)%string = String _ _ |- _ =>
      destruct s1; simpl in E; [subst | injection E as ? ?; subst]
  end.

Lemma nullable_matches (r : regex) : nullable r = true <-> matches r "".
Proof.
  induction r as [| |c|lo hi|r1 IH1 r2 IH2|r1 IH1 r2 IH2|r IH|r IH]; simpl.
  - split; [discriminate | intros M; inversion M].
  - split; [intros _; constructor | reflexivity].
  - split; [discriminate | intros M; inversion M].
  - split; [discriminate | intros M; inversion M].
  - rewrite andb_true_iff, IH1, IH2. split.
    + intros [M1 M2]. exact (MSeq M1 M2).
    + intros M. inversion M; subst. split_nil. split; assumption.
  - rewrite orb_true_iff, IH1, IH2. split.
    + intros [M|M]; [apply MAltL | apply MAltR]; assumption.
    + intros M. inversion M; subst; [left | right]; assumption.
  - split; [intros _; constructor | reflexivity].
  - rewrite IH. split.
    + intros M. exact (MPlus M (MStarNil r)).
    + intros M. inversion M; subst. split_nil. assumption.
Qed.

(** A non-empty word of a star starts with a non-empty word of the body. *)
Lemma star_cons_inv (r : regex) (c : ascii) (s : string) :
  matches (Star r) (String c s) ->
  exists s1 s2, s = s1 ++ s2 /\ matches r (String c s1) /\ matches (Star r) s2.
Proof.
  intros M. remember (Star r) as r' eqn:Er. remember (String c s) as w eqn:Ew.
  revert c s Ew.
  induction M as [| | | | | | |r0 s1 s2 M1 _ M2 IH2|]; intros c' s' Ew; try discriminate.
  injection Er as ->. destruct s1 as [|c1 s1]; simpl in Ew.
  - apply IH2; [reflexivity | assumption].
  - injection Ew as E1 E2. subst. exists s1, s2. auto.
Qed.

Lemma seq_deriv_sound (r1 r2 : regex) (c : ascii) (s : string) :
  (forall t, matches (deriv c r1) t -> matches r1 (String c t)) ->
  matches (Seq (deriv c r1) r2) s -> matches (Seq r1 r2) (String c s).
Proof.
  intros IH M. inversion M as [| | |? ? s1 s2 M1 M2| | | | |]; subst.
  apply IH in M1. exact (MSeq M1 M2).
Qed.

Lemma deriv_matches (r : regex) (c : ascii) (s : string) :
  matches (deriv c r) s <-> matches r (String c s).
Proof.
  revert s.
  induction r as [| |d|lo hi|r1 IH1 r2 IH2|r1 IH1 r2 IH2|r IH|r IH]; intros s; simpl.
  - split; intros M; inversion M.
  - split; intros M; inversion M.
  - destruct (Ascii.eqb_spec c d) as [->|N].
    + split; intros M; inversion M; subst; constructor.
    + split; intros M; inversion M; subst; congruence.
  - destruct (in_range lo hi c) eqn:R.
    + split; intros M; inversion M; subst; now constructor.
    + split; intros M; inversion M; subst; congruence.
  - assert (L := @seq_deriv_sound r1 r2 c s (fun t => proj1 (IH1 t))).
    destruct (nullable r1) eqn:N.
    + split.
      * intros M. inversion M as [| | | |? ? ? M'|? ? ? M'| | |]; subst.
        -- apply L, M'.
        -- apply IH2 in M'. apply nullable_matches in N. exact (MSeq N M').
      * intros M. inversion M as [| | |? ? s1 s2 M1 M2| | | | |]; subst.
        split_cons.
        -- apply MAltR, IH2, M2.
        -- apply MAltL. apply IH1 in M1. exact (MSeq M1 M2).
    + split; [exact L|].
      intros M. inversion M as [| | |? ? s1 s2 M1 M2| | | | |]; subst.
      split_cons.
      * apply nullable_matches in M1. congruence.
      * apply IH1 in M1. exact (MSeq M1 M2).
  - split.
    + intros M. inversion M; subst; [apply MAltL, IH1 | apply MAltR, IH2]; assumption.
    + intros M. inversion M; subst; [apply MAltL, IH1 | apply MAltR, IH2]; assumption.
  - split.
    + intros M. inversion M as [| | |? ? s1 s2 M1 M2| | | | |]; subst.
      apply IH in M1. exact (MStarApp M1 M2).
    + intros M. destruct (star_cons_inv M) as (s1 & s2 & -> & M1 & M2).
      apply IH in M1. exact (MSeq M1 M2).
  - split.
    + intros M. inversion M as [| | |? ? s1 s2 M1 M2| | | | |]; subst.
      apply IH in M1. exact (MPlus M1 M2).
    + intros M. inversion M as [| | | | | | | |? s1 s2 M1 M2]; subst.
      split_cons.
      * destruct (star_cons_inv M2) as (t1 & t2 & -> & N1 & N2).
        apply IH in N1. exact (MSeq N1 N2).
      * apply IH in M1. exact (MSeq M1 M2).
Qed.

Lemma regex_test_matches (r : regex) (s : string) :
  regex_test r s = true <-> matches r s.
Proof.
  revert r. induction s as [|c s IH]; intros r; simpl.
  - apply nullable_matches.
  - rewrite IH. apply deriv_matches.
Qed.

(** ** The key pattern is the language of the constructor's expression *)

Lemma matches_Lits (w s : string) : matches (Lits w) s <-> s = w.
Proof.
  revert s. induction w as [|c w IH]; intros s; simpl.
  - split; [intros M; now inversion M | intros ->; constructor].
  - split.
    + intros M. inversion M as [| | |? ? s1 s2 M1 M2| | | | |]; subst.
      inv M1. simpl. f_equal. now apply IH.
    + intros ->. apply (MSeq (MLit c)). now apply IH.
Qed.

Lemma alphanumeric_ranges (c : ascii) :
  alphanumeric c = in_range "a" "z" c || in_range "A" "Z" c || in_range "0" "9" c.
Proof. reflexivity. Qed.

Lemma matches_Range (lo hi : ascii) (s : string) :
  matches (Range lo hi) s <-> exists c, s = String c "" /\ in_range lo hi c = true.
Proof.
  split.
  - intros M. inv M. eauto.
  - intros (c & -> & R). now constructor.
Qed.

Lemma matches_alnum_class (s : string) :
  matches alnum_class s <-> exists c, s = String c "" /\ alphanumeric c = true.
Proof.
  unfold alnum_class. split.
  - intros M. inversion M as [| | | |? ? ? M1|? ? ? M1| | |]; subst.
    + apply matches_Range in M1. destruct M1 as (c & -> & R).
      exists c. rewrite alphanumeric_ranges, R. auto.
    + inversion M1 as [| | | |? ? ? M2|? ? ? M2| | |]; subst;
        apply matches_Range in M2; destruct M2 as (c & -> & R);
        exists c; rewrite alphanumeric_ranges, R, ?orb_true_r; auto.
  - intros (c & -> & A). rewrite alphanumeric_ranges in A.
    apply orb_true_iff in A. destruct A as [A|A]; [apply orb_true_iff in A; destruct A as [A|A]|].
    + apply MAltL. now constructor.
    + apply MAltR, MAltL. now constructor.
    + apply MAltR, MAltR. now constructor.
Qed.

Lemma matches_star_alnum (s : string) :
  matches (Star alnum_class) s <-> all_chars alphanumeric s = true.
Proof.
  split.
  - intros M. remember (Star alnum_class) as r eqn:Er.
    induction M as [| | | | | | |r0 s1 s2 M1 _ M2 IH2|]; try discriminate; [reflexivity|].
    injection Er as ->. apply matches_alnum_class in M1. destruct M1 as (c & -> & A).
    simpl. rewrite A. now apply IH2.
  - induction s as [|c s IH]; simpl; intros A; [constructor|].
    apply andb_true_iff in A. destruct A as [A1 A2].
    change (String c s) with (String c "" ++ s).
    apply MStarApp; [|now apply IH].
    apply matches_alnum_class. now exists c.
Qed.

Lemma matches_plus_alnum (s : string) :
  matches (Plus alnum_class) s <-> s <> "" /\ all_chars alphanumeric s = true.
Proof.
  split.
  - intros M. inversion M as [| | | | | | | |? s1 s2 M1 M2]; subst.
    apply matches_alnum_class in M1. destruct M1 as (c & -> & A).
    apply matches_star_alnum in M2. simpl. rewrite A, M2. split; [discriminate | reflexivity].
  - intros [N A]. destruct s as [|c s]; [congruence|]. simpl in A.
    apply andb_true_iff in A. destruct A as [A1 A2].
    change (String c s) with (String c "" ++ s).
    apply MPlus; [apply matches_alnum_class; now exists c | now apply matches_star_alnum].
Qed.

Lemma matches_Seq (r1 r2 : regex) (s : string) :
  matches (Seq r1 r2) s <->
  exists s1 s2, s = s1 ++ s2 /\ matches r1 s1 /\ matches r2 s2.
Proof.
  split.
  - intros M. inv M. eauto.
  - intros (s1 & s2 & -> & M1 & M2). now constructor.
Qed.

Lemma matches_Alt (r1 r2 : regex) (s : string) :
  matches (Alt r1 r2) s <-> matches r1 s \/ matches r2 s.
Proof.
  split.
  - intros M. inv M; auto.
  - intros [M|M]; [now apply MAltL | now apply MAltR].
Qed.

Lemma api_key_regex_language (k : string) :
  matches api_key_regex k <-> key_pattern k.
Proof.
  unfold api_key_regex, key_pattern. split.
  - intros M.
    apply matches_Seq in M. destruct M as (sa & s' & -> & Ma & M).
    apply matches_Seq in M. destruct M as (sb & s'' & -> & Mb & M).
    apply matches_Seq in M. destruct M as (sc & sd & -> & Mc & Md).
    apply matches_Lits in Ma. subst sa. inv Mc.
    apply matches_plus_alnum in Md. destruct Md as [N A].
    exists sb, sd. repeat split; try assumption.
    apply matches_Alt in Mb. rewrite !matches_Lits in Mb. exact Mb.
  - intros (env & rest & E & -> & N & A).
    apply MSeq; [now apply matches_Lits|].
    apply MSeq.
    + apply matches_Alt. rewrite !matches_Lits. exact E.
    + apply (MSeq (MLit "_")). now apply matches_plus_alnum.
Qed.

(** [apiKey.match(...)] is truthy exactly on the keys of the format. *)
Lemma String_match_key_pattern (k : string) :
  String_match k api_key_regex = true <-> key_pattern k.
Proof.
  unfold String_match. rewrite regex_test_matches. apply api_key_regex_language.
Qed.

Lemma key_pattern_nonempty (k : string) : key_pattern k -> k <> "".
Proof. intros (env & rest & _ & -> & _). discriminate. Qed.

(** ** Joining and splitting *)

Lemma all_chars_append (p : ascii -> bool) (a b : string) :
  all_chars p (a ++ b) = all_chars p a && all_chars p b.
Proof.
  induction a as [|c a IH]; simpl; [reflexivity|]. now rewrite IH, andb_assoc.
Qed.

Lemma join_from_acc (sep R : string) (l : list string) :
  join_from sep R false l = R ++ join_from sep "" false l.
Proof.
  revert R. induction l as [|x l IH]; intros R; simpl.
  - now rewrite append_nil_r.
  - rewrite IH, (IH (sep ++ x)). now rewrite !append_assoc.
Qed.

Lemma join_from_rest (sep : string) (l : list string) :
  join_from sep "" false l =
  match l with
  | [] => ""
  | _ :: _ => sep ++ String.concat sep l
  end.
Proof.
  induction l as [|x l IH]; simpl; [reflexivity|].
  rewrite join_from_acc, IH. destruct l as [|y l].
  - now rewrite append_nil_r.
  - now rewrite append_assoc.
Qed.

(** [Array.prototype.join] is the join of the library: the elements in
    order, the separator between two of them. *)
Lemma join_concat (sep : string) (l : list string) : join sep l = String.concat sep l.
Proof.
  unfold join. destruct l as [|x l]; simpl; [reflexivity|].
  rewrite join_from_acc, join_from_rest. destruct l; [apply append_nil_r | reflexivity].
Qed.

Lemma split_on_plain (sep : ascii) (a : string) :
  all_chars (is_not sep) a = true -> split_on sep a = [a].
Proof.
  induction a as [|c a IH]; simpl; [reflexivity|]. intros A.
  apply andb_true_iff in A. destruct A as [A1 A2]. unfold is_not in A1.
  apply negb_true_iff in A1. rewrite A1, (IH A2). reflexivity.
Qed.

Lemma split_on_app (sep : ascii) (a b : string) :
  all_chars (is_not sep) a = true ->
  split_on sep (a ++ String sep b) = a :: split_on sep b.
Proof.
  induction a as [|c a IH]; simpl.
  - intros _. now rewrite Ascii.eqb_refl.
  - intros A. apply andb_true_iff in A. destruct A as [A1 A2]. unfold is_not in A1.
    apply negb_true_iff in A1. rewrite A1, (IH A2). reflexivity.
Qed.

(** Splitting a join gives the pieces back, when there is a piece and no
    piece has the separator in it. *)
Lemma split_on_concat (sep : ascii) (l : list string) :
  l <> [] ->
  Forall (fun x => all_chars (is_not sep) x = true) l ->
  split_on sep (String.concat (String sep "") l) = l.
Proof.
  intros N F. induction F as [|x l Px F IH]; [congruence|].
  destruct l as [|y l].
  - simpl. now apply split_on_plain.
  - change (String.concat (String sep "") (x :: y :: l))
      with (x ++ String sep (String.concat (String sep "") (y :: l))).
    rewrite split_on_app by exact Px. rewrite IH; [reflexivity | discriminate].
Qed.

Lemma cut_at_app (sep : ascii) (a b : string) :
  all_chars (is_not sep) a = true -> cut_at sep (a ++ String sep b) = (a, b).
Proof.
  induction a as [|c a IH]; simpl.
  - intros _. now rewrite Ascii.eqb_refl.
  - intros A. apply andb_true_iff in A. destruct A as [A1 A2]. unfold is_not in A1.
    apply negb_true_iff in A1. rewrite A1, (IH A2). reflexivity.
Qed.

(** ** The query string can be read back *)

Lemma urldecode_byte (c : ascii) (rest : string) :
  urldecode (urlencode_byte c ++ rest) = String c (urldecode rest).
Proof. destruct c as [[] [] [] [] [] [] [] []]; reflexivity. Qed.

Lemma urldecode_urlencode (s : string) : urldecode (urlencode s) = s.
Proof.
  induction s as [|c s IH]; simpl; [reflexivity|]. now rewrite urldecode_byte, IH.
Qed.

(** The serializer writes neither [&] nor [=]. *)
Lemma urlencode_byte_plain (c : ascii) : all_chars plain (urlencode_byte c) = true.
Proof. destruct c as [[] [] [] [] [] [] [] []]; reflexivity. Qed.

Lemma urlencode_plain (s : string) : all_chars plain (urlencode s) = true.
Proof.
  induction s as [|c s IH]; simpl; [reflexivity|].
  now rewrite all_chars_append, urlencode_byte_plain, IH.
Qed.

Lemma all_chars_impl (p q : ascii -> bool) (s : string) :
  (forall c, p c = true -> q c = true) -> all_chars p s = true -> all_chars q s = true.
Proof.
  intros I. induction s as [|c s IH]; simpl; [reflexivity|]. intros A.
  apply andb_true_iff in A. destruct A as [A1 A2]. now rewrite (I _ A1), (IH A2).
Qed.

Lemma urlencode_no_amp (s : string) : all_chars (is_not "&") (urlencode s) = true.
Proof.
  apply all_chars_impl with (p := plain); [|apply urlencode_plain].
  intros c P. unfold plain in P. now apply andb_true_iff in P.
Qed.

Lemma urlencode_no_eq (s : string) : all_chars (is_not "=") (urlencode s) = true.
Proof.
  apply all_chars_impl with (p := plain); [|apply urlencode_plain].
  intros c P. unfold plain in P. now apply andb_true_iff in P.
Qed.

Lemma piece_no_amp (kv : string * string) : all_chars (is_not "&") (piece kv) = true.
Proof.
  unfold piece. rewrite !all_chars_append, !urlencode_no_amp. reflexivity.
Qed.

Lemma piece_read (kv : string * string) :
  (let (k, v) := cut_at "=" (piece kv) in (urldecode k, urldecode v)) = kv.
Proof.
  unfold piece. change ("=" ++ urlencode (snd kv)) with (String "=" (urlencode (snd kv))).
  rewrite cut_at_app by apply urlencode_no_eq.
  rewrite !urldecode_urlencode. now destruct kv.
Qed.

Lemma piece_nonempty (kv : string * string) : negb (piece kv =? "") = true.
Proof.
  unfold piece. destruct (urlencode (fst kv)); reflexivity.
Qed.

(** Reading a serialized list of entries gives the entries back. *)
Lemma parse_query_toString (params : list (string * string)) :
  parse_query (URLSearchParams_toString params) = params.
Proof.
  unfold parse_query, URLSearchParams_toString. rewrite join_concat.
  destruct params as [|kv params]; [reflexivity|].
  rewrite split_on_concat.
  - generalize (kv :: params). intros l. induction l as [|x l IH]; [reflexivity|].
    cbn [map filter]. rewrite piece_nonempty. cbn [map]. now rewrite piece_read, IH.
  - discriminate.
  - apply Forall_forall. intros x I. apply in_map_iff in I. destruct I as (y & <- & _).
    apply piece_no_amp.
Qed.

(** ** The body can be read back *)

Lemma JSON_read_string_byte (c : ascii) (tail : string) :
  JSON_read_string (JSON_escape_byte c ++ tail) = prepend c (JSON_read_string tail).
Proof. destruct c as [[] [] [] [] [] [] [] []]; reflexivity. Qed.

Lemma JSON_read_string_escape (s rest : string) :
  JSON_read_string (JSON_escape s ++ String dquote rest) = Some (s, rest).
Proof.
  induction s as [|c s IH]; [reflexivity|].
  cbn [JSON_escape]. now rewrite append_assoc, JSON_read_string_byte, IH.
Qed.

Lemma member_append (kv : string * string) (tail : string) :
  member kv ++ tail =
  String dquote (JSON_escape (fst kv) ++
    String dquote (String ":" (String dquote (JSON_escape (snd kv) ++ String dquote tail)))).
Proof.
  unfold member, JSON_quote. cbn [append]. rewrite !append_assoc. cbn [append].
  rewrite !append_assoc. reflexivity.
Qed.

Lemma length_append (a b : string) : String.length (a ++ b) = String.length a + String.length b.
Proof. induction a as [|c a IH]; simpl; [reflexivity | now rewrite IH]. Qed.

Lemma members_length (o : Obj) :
  List.length o <= String.length (String.concat "," (map member o)).
Proof.
  induction o as [|kv o IH]; [apply Nat.le_refl|].
  destruct o as [|kv' o].
  - cbn [map String.concat]. rewrite <- (append_nil_r (member kv)), member_append. simpl. lia.
  - change (String.concat "," (map member (kv :: kv' :: o)))
      with (member kv ++ String "," (String.concat "," (map member (kv' :: o)))).
    rewrite member_append. cbn [String.length List.length] in *.
    rewrite length_append. cbn [String.length]. rewrite length_append. cbn [String.length].
    lia.
Qed.

Lemma JSON_read_members_stringify (o : Obj) (kv : string * string) (fuel : nat) :
  List.length (kv :: o) <= fuel ->
  JSON_read_members fuel (String.concat "," (map member (kv :: o)) ++ "}") = Some (kv :: o).
Proof.
  revert kv fuel. induction o as [|kv' o IH]; intros kv fuel L.
  - destruct fuel as [|fuel]; [simpl in L; lia|].
    cbn [map String.concat]. rewrite member_append. cbn [JSON_read_members].
    rewrite Ascii.eqb_refl, JSON_read_string_escape.
    cbn [Ascii.eqb Bool.eqb andb]. rewrite Ascii.eqb_refl, JSON_read_string_escape.
    destruct kv. reflexivity.
  - destruct fuel as [|fuel]; [simpl in L; lia|].
    change (String.concat "," (map member (kv :: kv' :: o)))
      with (member kv ++ String "," (String.concat "," (map member (kv' :: o)))).
    rewrite append_assoc. cbn [append]. rewrite member_append. cbn [JSON_read_members].
    rewrite Ascii.eqb_refl, JSON_read_string_escape.
    cbn [Ascii.eqb Bool.eqb andb]. rewrite Ascii.eqb_refl, JSON_read_string_escape.
    cbn [Ascii.eqb Bool.eqb]. rewrite IH by (simpl in *; lia).
    destruct kv. reflexivity.
Qed.

(** Reading what [JSON.stringify] wrote gives the object back. *)
Lemma JSON_parse_stringify (o : Obj) : JSON_parse_object (JSON_stringify o) = Some o.
Proof.
  unfold JSON_stringify. rewrite join_concat. destruct o as [|kv o]; [reflexivity|].
  cbn [append JSON_parse_object]. cbn [Ascii.eqb Bool.eqb].
  assert (E : (String.concat "," (map member (kv :: o)) ++ "}" =? "}") = false).
  { destruct o as [|kv' o].
    - cbn [map String.concat]. rewrite member_append. reflexivity.
    - change (String.concat "," (map member (kv :: kv' :: o)))
        with (member kv ++ String "," (String.concat "," (map member (kv' :: o)))).
      rewrite append_assoc, member_append. reflexivity. }
  rewrite E. apply JSON_read_members_stringify.
  rewrite length_append. pose proof (members_length (kv :: o)). cbn [String.length]. lia.
Qed.

(** ** The parameters of the operations *)

Lemma and_prop_given (key : string) (v : option string) : and_prop key v = given key v.
Proof. unfold and_prop, given, nonempty. destruct v as [x|]; [destruct (x =? "")|]; reflexivity. Qed.

Ltac options_cases o :=
  let r := fresh "r" in let f := fresh "f" in
  destruct o as [[r|] [f|]]; unfold given, nonempty; cbn;
  try destruct (r =? ""); try destruct (f =? ""); reflexivity.

Lemma getProductDetails_entries (identifier : string) (options : Options) :
  getProductDetails_params identifier options =
  ("identifier", identifier) :: given "format" (format options).
Proof. unfold getProductDetails_params, new_URLSearchParams, and_prop. options_cases options. Qed.

Lemma getProductDetailsBatch_entries (identifiers : list string) (options : Options) :
  getProductDetailsBatch_params identifiers options =
  ("identifiers", join "," identifiers) :: given "format" (format options).
Proof.
  unfold getProductDetailsBatch_params, new_URLSearchParams, and_prop.
  generalize (join "," identifiers). intros j. options_cases options.
Qed.

Lemma getCurrentOffers_entries (identifier : string) (options : Options) :
  getCurrentOffers_params identifier options =
  (("identifier", identifier) :: given "retailer" (retailer options)
     ++ given "format" (format options))%list.
Proof. unfold getCurrentOffers_params, new_URLSearchParams, and_prop. options_cases options. Qed.

Lemma getCurrentOffersBatch_entries (identifiers : list string) (options : Options) :
  getCurrentOffersBatch_params identifiers options =
  (("identifiers", join "," identifiers) :: given "retailer" (retailer options)
     ++ given "format" (format options))%list.
Proof.
  unfold getCurrentOffersBatch_params, new_URLSearchParams, and_prop.
  generalize (join "," identifiers). intros j. options_cases options.
Qed.

Lemma getPriceHistory_entries (identifier startDate endDate : string) (options : Options) :
  getPriceHistory_params identifier startDate endDate options =
  (("identifier", identifier) :: ("start_date", startDate) :: ("end_date", endDate)
     :: given "retailer" (retailer options) ++ given "format" (format options))%list.
Proof. unfold getPriceHistory_params, new_URLSearchParams, and_prop. options_cases options. Qed.

Lemma scheduleProductMonitoring_entries (identifier frequency : string) (options : Options) :
  scheduleProductMonitoring_body identifier frequency options =
  ("identifier", identifier) :: ("frequency", frequency) :: given "retailer" (retailer options).
Proof. unfold scheduleProductMonitoring_body, and_prop. options_cases options. Qed.

Lemma scheduleProductMonitoringBatch_entries
    (identifiers : list string) (frequency : string) (options : Options) :
  scheduleProductMonitoringBatch_body identifiers frequency options =
  ("identifiers", join "," identifiers) :: ("frequency", frequency)
    :: given "retailer" (retailer options).
Proof.
  unfold scheduleProductMonitoringBatch_body, and_prop.
  generalize (join "," identifiers). intros j. options_cases options.
Qed.

(** ** The client *)

Section ClientProperties.

Context {number : Type} `{JsNumber number}.

Local Abbreviation State := (@State number).
Local Abbreviation ShopSavvyConfig := (@ShopSavvyConfig number).
Local Abbreviation ShopSavvyDataAPI := (@ShopSavvyDataAPI number).
Local Abbreviation json := (@json number).
Local Abbreviation Reply := (@Reply number).
Local Abbreviation M := (@M number).

Implicit Types (s : State) (config : ShopSavvyConfig).

(** *** Construction *)

Lemma createShopSavvyClient_eq config s :
  createShopSavvyClient config s =
  (match config_apiKey config with
   | None => Rejected key_required
   | Some k =>
       if k =? "" then Rejected key_required
       else if String_match k api_key_regex then Resolved (instance_of config)
       else Rejected key_invalid
   end, set_this (instance_of config) s).
Proof.
  unfold createShopSavvyClient, new_ShopSavvyDataAPI, constructor, bind, get_this,
    assign_apiKey, assign_baseUrl, assign_timeout, instance_of.
  cbn [fst snd this apiKey baseUrl timeout set_this ToBoolean_str ToString_str].
  destruct (config_apiKey config) as [k|]; cbn; [|reflexivity].
  destruct (k =? ""); cbn; [reflexivity|].
  unfold String_match. destruct (regex_test api_key_regex k); reflexivity.
Qed.

Lemma valid_key_dec config :
  valid_key (config_apiKey config) <->
  exists k, config_apiKey config = Some k /\ (k =? "") = false /\
            String_match k api_key_regex = true.
Proof.
  unfold valid_key. split.
  - intros (k & E & K). exists k. repeat split; [assumption | | now apply String_match_key_pattern].
    apply String.eqb_neq. now apply key_pattern_nonempty.
  - intros (k & E & _ & K). exists k. split; [assumption | now apply String_match_key_pattern].
Qed.

(** *** Timers and abort controllers *)

Lemma existsb_eqb_In (c : nat) (l : list nat) :
  existsb (Nat.eqb c) l = true <-> In c l.
Proof.
  rewrite existsb_exists. split.
  - intros (x & I & E). apply Nat.eqb_eq in E. now subst.
  - intros I. exists c. split; [assumption | apply Nat.eqb_refl].
Qed.

Lemma abort_aborted (c : nat) s (x : nat) :
  In x (aborted (abort c s)) <-> x = c \/ In x (aborted s).
Proof.
  unfold abort. destruct (existsb (Nat.eqb c) (aborted s)) eqn:E.
  - apply existsb_eqb_In in E. split; [auto | intros [->|I]; assumption].
  - simpl. split; intros [E'|I]; auto.
Qed.

Lemma abort_frame (c : nat) s :
  this (abort c s) = this s /\ network (abort c s) = network s /\
  timers (abort c s) = timers s /\ next_handle (abort c s) = next_handle s.
Proof. unfold abort. destruct (existsb _ _); auto. Qed.

Lemma abort_trace (c : nat) s (e : Event) : In e (trace s) -> In e (trace (abort c s)).
Proof.
  unfold abort. destruct (existsb _ _); [auto|]. simpl. intros I.
  apply in_or_app. now left.
Qed.

Lemma fire_frame (ts : list Timer) s :
  this (fire ts s) = this s /\ network (fire ts s) = network s /\
  timers (fire ts s) = timers s /\ next_handle (fire ts s) = next_handle s.
Proof.
  revert s. induction ts as [|t ts IH]; intros s; simpl; [auto|].
  destruct (IH (run_callback (timer_callback t) (log (EvTimerFired (timer_id t)) s)))
    as (E1 & E2 & E3 & E4).
  rewrite E1, E2, E3, E4. destruct (timer_callback t) as [c]. simpl.
  destruct (abort_frame c (log (EvTimerFired (timer_id t)) s)) as (F1 & F2 & F3 & F4).
  rewrite F1, F2, F3, F4. auto.
Qed.

Lemma fire_trace (ts : list Timer) s (e : Event) :
  In e (trace s) -> In e (trace (fire ts s)).
Proof.
  revert s. induction ts as [|t ts IH]; intros s I; simpl; [assumption|].
  apply IH. destruct (timer_callback t) as [c]. simpl. apply abort_trace.
  simpl. apply in_or_app. now left.
Qed.

(** After the pending timers have fired, the aborted controllers are the
    ones that were, and the ones of the callbacks. *)
Lemma fire_aborted (ts : list Timer) s (x : nat) :
  In x (aborted (fire ts s)) <->
  In x (aborted s) \/ exists t, In t ts /\ timer_callback t = AbortCallback x.
Proof.
  revert s. induction ts as [|t ts IH]; intros s; simpl.
  - split; [auto | intros [I|(t & [] & _)]; assumption].
  - rewrite IH. destruct (timer_callback t) as [c] eqn:Ec. simpl.
    rewrite abort_aborted. simpl. split.
    + intros [[-> | I] | (t' & I & E)]; eauto.
    + intros [I | (t' & [-> | I] & E)]; eauto.
      rewrite Ec in E. injection E as ->. auto.
Qed.

Lemma run_timers_frame s :
  this (run_timers s) = this s /\ network (run_timers s) = network s /\
  timers (run_timers s) = [] /\ next_handle (run_timers s) = next_handle s.
Proof.
  unfold run_timers. destruct (fire_frame (timers s) (set_timers [] s)) as (E1 & E2 & E3 & E4).
  rewrite E1, E2, E3, E4. auto.
Qed.

Lemma run_timers_aborted s (x : nat) :
  In x (aborted (run_timers s)) <->
  In x (aborted s) \/ exists t, In t (timers s) /\ timer_callback t = AbortCallback x.
Proof. unfold run_timers. now rewrite fire_aborted. Qed.

Lemma run_timers_trace s (e : Event) : In e (trace s) -> In e (trace (run_timers s)).
Proof. unfold run_timers. intros I. now apply fire_trace. Qed.

Lemma wait_aborts (A : Type) (n : nat) s :
  (exists t, In t (timers s) /\ timer_callback t = AbortCallback n) ->
  @wait_for_abort number A (Some n) s = (Rejected AbortError, run_timers s).
Proof.
  intros Ex. unfold wait_for_abort, signal_aborted.
  replace (existsb (Nat.eqb n) (aborted (run_timers s))) with true; [reflexivity|].
  symmetry. apply existsb_eqb_In, run_timers_aborted. now right.
Qed.

Lemma wait_pends (A : Type) (n : nat) s :
  ~ In n (aborted s) ->
  (forall t, In t (timers s) -> timer_callback t <> AbortCallback n) ->
  @wait_for_abort number A (Some n) s = (Pending, run_timers s).
Proof.
  intros N T. unfold wait_for_abort, signal_aborted.
  destruct (existsb (Nat.eqb n) (aborted (run_timers s))) eqn:E; [|reflexivity].
  apply existsb_eqb_In, run_timers_aborted in E.
  destruct E as [I | (t & I & E)]; [contradiction | now apply T in I].
Qed.

(** *** What [request] returns *)

Lemma fresh_controller s : handles_ok s -> existsb (Nat.eqb (next_handle s)) (aborted s) = false.
Proof.
  intros [A _]. destruct (existsb _ _) eqn:E; [|reflexivity].
  apply existsb_eqb_In, A in E. lia.
Qed.

Lemma request_outcome (endpoint : string) (options : RequestInit) s :
  handles_ok s ->
  fst (request endpoint options s) =
  request_result (this s) (network s (request_sent endpoint options s)).
Proof.
  intros W. pose proof (fresh_controller W) as F.
  unfold request, request_sent, bind, try_catch, get_this, new_AbortController, setTimeout,
    fetch, clearTimeout, Response_json.
  cbn [fst snd this network aborted next_handle timers trace log bump_handle set_timers
       set_aborted signal_aborted req_signal fetch_arg].
  rewrite F.
  destruct (network s _) as [r|e|]; cbn [request_result].
  - cbn [reply body resp_signal]. destruct (body r) as [data|e|].
    + cbn [ret]. unfold Response_ok. cbn [reply].
      destruct (reply_ok r); cbn [negb ret fst].
      * reflexivity.
      * unfold get_error, status_error, new_Error_of, bind, throw, ret.
        destruct data; cbn [fst name new_Error new_TypeError String.eqb Ascii.eqb Bool.eqb];
          try reflexivity.
        fold (status_line r). destruct (or_message _ _); reflexivity.
    + unfold throw, rethrown, timeout_error. destruct (name e =? "AbortError"); reflexivity.
    + rewrite wait_pends.
      * reflexivity.
      * cbn [aborted log set_timers bump_handle]. intros I.
        apply existsb_eqb_In in I. congruence.
      * cbn [timers log set_timers bump_handle]. intros t I E.
        apply filter_In in I. destruct I as [I Ne]. apply in_app_or in I.
        destruct I as [I | [<- | []]].
        -- destruct W as [_ T]. apply T in I. rewrite E in I. lia.
        -- cbn [timer_id] in Ne. rewrite Nat.eqb_refl in Ne. discriminate.
  - unfold throw, rethrown, timeout_error. destruct (name e =? "AbortError"); reflexivity.
  - rewrite wait_aborts.
    + cbn [name AbortError String.eqb Ascii.eqb Bool.eqb]. unfold throw. cbn [fst].
      unfold timeout_error. cbn [this log set_timers].
      rewrite (proj1 (run_timers_frame _)). reflexivity.
    + eexists. split; [cbn [timers log set_timers bump_handle]; apply in_or_app; right; left;
                       reflexivity | reflexivity].
Qed.

(** *** The state [request] leaves *)

Lemma request_state (endpoint : string) (options : RequestInit) s :
  handles_ok s ->
  snd (request endpoint options s) = request_final endpoint options s.
Proof.
  intros W. pose proof (fresh_controller W) as F.
  unfold request, request_final, sent, cleared, request_sent, bind, try_catch, get_this,
    new_AbortController, setTimeout, fetch, clearTimeout, Response_json.
  cbn [fst snd this network aborted next_handle timers trace log bump_handle set_timers
       set_aborted signal_aborted req_signal fetch_arg].
  rewrite F.
  destruct (network s _) as [r|e|].
  - cbn [reply body resp_signal]. destruct (body r) as [data|e|].
    + cbn [ret]. unfold Response_ok. cbn [reply].
      destruct (reply_ok r); cbn [negb ret snd].
      * reflexivity.
      * unfold get_error, new_Error_of, bind, throw, ret.
        destruct data; cbn [snd name new_Error new_TypeError String.eqb Ascii.eqb Bool.eqb];
          try reflexivity.
        destruct (or_message _ _); reflexivity.
    + unfold throw. destruct (name e =? "AbortError"); reflexivity.
    + rewrite wait_pends.
      * reflexivity.
      * cbn [aborted log set_timers bump_handle]. intros I.
        apply existsb_eqb_In in I. congruence.
      * cbn [timers log set_timers bump_handle]. intros t I E.
        apply filter_In in I. destruct I as [I Ne]. apply in_app_or in I.
        destruct I as [I | [<- | []]].
        -- destruct W as [_ T]. apply T in I. rewrite E in I. lia.
        -- cbn [timer_id] in Ne. rewrite Nat.eqb_refl in Ne. discriminate.
  - unfold throw. destruct (name e =? "AbortError"); reflexivity.
  - rewrite wait_aborts.
    + cbn [name AbortError String.eqb Ascii.eqb Bool.eqb]. unfold throw. reflexivity.
    + eexists. split; [cbn [timers log set_timers bump_handle]; apply in_or_app; right; left;
                       reflexivity | reflexivity].
Qed.

(** *** What [request] leaves alone

    [request] and the public operations change the state only through
    the timers, the aborted controllers, the handle counter and the
    trace: a property of the state that these four updates keep is kept
    by every operation. *)

Section Frame.

Variable I : State -> Prop.
Hypothesis I_log : forall e s, I s -> I (log e s).
Hypothesis I_set_timers : forall ts s, I s -> I (set_timers ts s).
Hypothesis I_set_aborted : forall l s, I s -> I (set_aborted l s).
Hypothesis I_bump_handle : forall s, I s -> I (bump_handle s).

Lemma keeps_ret (A : Type) (a : A) : keeps I (ret a).
Proof. intros s Is. exact Is. Qed.

Lemma keeps_throw (A : Type) (e : JsError) : keeps I (@throw number A e).
Proof. intros s Is. exact Is. Qed.

Lemma keeps_bind (A B : Type) (m : M A) (k : A -> M B) :
  keeps I m -> (forall a, keeps I (k a)) -> keeps I (bind m k).
Proof.
  intros Km Kk s Is. unfold bind. specialize (Km s Is).
  destruct (m s) as [[a|e|] s']; simpl in *; [now apply Kk | assumption | assumption].
Qed.

Lemma keeps_try_catch (A : Type) (m : M A) (h : JsError -> M A) :
  keeps I m -> (forall e, keeps I (h e)) -> keeps I (try_catch m h).
Proof.
  intros Km Kh s Is. unfold try_catch. specialize (Km s Is).
  destruct (m s) as [[a|e|] s']; simpl in *; [assumption | now apply Kh | assumption].
Qed.

Lemma keeps_get_this : keeps I get_this.
Proof. intros s Is. exact Is. Qed.

Lemma keeps_new_AbortController : keeps I new_AbortController.
Proof. intros s Is. now apply I_bump_handle. Qed.

Lemma keeps_setTimeout (cb : Callback) (d : option number) : keeps I (setTimeout cb d).
Proof. intros s Is. now apply I_log, I_bump_handle, I_set_timers. Qed.

Lemma keeps_clearTimeout (id : nat) : keeps I (clearTimeout id).
Proof. intros s Is. now apply I_log, I_set_timers. Qed.

Lemma I_abort (c : nat) s : I s -> I (abort c s).
Proof. intros Is. unfold abort. destruct (existsb _ _); [assumption | now apply I_log, I_set_aborted]. Qed.

Lemma I_fire (ts : list Timer) s : I s -> I (fire ts s).
Proof.
  revert s. induction ts as [|t ts IH]; intros s Is; simpl; [assumption|].
  apply IH. destruct (timer_callback t). simpl. now apply I_abort, I_log.
Qed.

Lemma keeps_wait_for_abort (A : Type) (sig : option nat) : keeps I (@wait_for_abort number A sig).
Proof.
  intros s Is. unfold wait_for_abort.
  assert (I (run_timers s)) by now apply I_fire, I_set_timers.
  destruct (signal_aborted sig (run_timers s)); assumption.
Qed.

Lemma keeps_fetch (req : Request) : keeps I (fetch req).
Proof.
  intros s Is. unfold fetch. cbv zeta.
  destruct (signal_aborted _ _); [now apply I_log|].
  destruct (network _ _); try now apply I_log.
  apply keeps_wait_for_abort. now apply I_log.
Qed.

Lemma keeps_Response_json (r : Response) : keeps I (Response_json r).
Proof.
  unfold Response_json. destruct (body (reply r));
    [apply keeps_ret | apply keeps_throw | apply keeps_wait_for_abort].
Qed.

Lemma keeps_get_error (data : json) : keeps I (get_error data).
Proof. destruct data; simpl; first [apply keeps_ret | apply keeps_throw]. Qed.

Lemma keeps_new_Error_of (m : option string) : keeps I (new_Error_of m).
Proof. destruct m; [apply keeps_ret | apply keeps_throw]. Qed.

Lemma keeps_request (endpoint : string) (options : RequestInit) :
  keeps I (request endpoint options).
Proof.
  unfold request.
  apply keeps_bind; [apply keeps_get_this | intros self].
  apply keeps_bind; [apply keeps_new_AbortController | intros controller].
  apply keeps_bind; [apply keeps_setTimeout | intros timeoutId].
  apply keeps_try_catch.
  - apply keeps_bind; [apply keeps_get_this | intros self'].
    apply keeps_bind; [apply keeps_fetch | intros response].
    apply keeps_bind; [apply keeps_clearTimeout | intros _].
    apply keeps_bind; [apply keeps_Response_json | intros data].
    destruct (negb _); [|apply keeps_ret].
    apply keeps_bind; [apply keeps_get_error | intros err].
    apply keeps_bind; [apply keeps_new_Error_of | intros e; apply keeps_throw].
  - intros e. apply keeps_bind; [apply keeps_clearTimeout | intros _].
    destruct (_ =? _); [|apply keeps_throw].
    apply keeps_bind; [apply keeps_get_this | intros self'; apply keeps_throw].
Qed.

Lemma keeps_perform (c : Call) : keeps I (perform c).
Proof. destruct c; apply keeps_request. Qed.

Lemma keeps_run_calls (calls : list Call) s : I s -> I (run_calls calls s).
Proof.
  revert s. induction calls as [|c calls IH]; intros s Is; simpl; [assumption|].
  apply IH. now apply keeps_perform.
Qed.

End Frame.

(** *** Handles stay in order *)

Lemma handles_ok_bounded s : handles_ok s <-> bounded (next_handle s) s.
Proof. reflexivity. Qed.

Lemma bounded_cleared (k id : nat) s : bounded k s -> bounded k (cleared id s).
Proof.
  intros [A T]. split; [exact A|].
  cbn. intros t I. apply filter_In in I. now apply T.
Qed.

Lemma bounded_run_timers (k : nat) s : bounded k s -> bounded k (run_timers s).
Proof.
  intros [A T]. split.
  - intros c I. apply run_timers_aborted in I. destruct I as [I | (t & I & E)].
    + now apply A.
    + apply T in I. now rewrite E in I.
  - rewrite (proj1 (proj2 (proj2 (run_timers_frame s)))). intros t [].
Qed.

Lemma bounded_sent (endpoint : string) (options : RequestInit) s :
  handles_ok s -> bounded (S (S (next_handle s))) (sent endpoint options s).
Proof.
  intros [A T]. split.
  - cbn. intros c I. apply A in I. lia.
  - cbn. intros t I. apply in_app_or in I. destruct I as [I | [<- | []]].
    + apply T in I. destruct (timer_callback t). lia.
    + cbn. lia.
Qed.

Lemma request_final_next_handle (endpoint : string) (options : RequestInit) s :
  next_handle (request_final endpoint options s) = S (S (next_handle s)).
Proof.
  unfold request_final. cbv zeta.
  destruct (network s _) as [r|e|]; [destruct (body r); [destruct (reply_ok r)| |] | |];
    cbn [cleared clearTimeout snd next_handle log set_timers];
    rewrite ?(proj2 (proj2 (proj2 (run_timers_frame _)))); reflexivity.
Qed.

Lemma request_final_bounded (endpoint : string) (options : RequestInit) s :
  handles_ok s -> bounded (S (S (next_handle s))) (request_final endpoint options s).
Proof.
  intros W. pose proof (bounded_sent endpoint options W) as B.
  unfold request_final. cbv zeta.
  destruct (network s _) as [r|e|]; [destruct (body r); [destruct (reply_ok r)| |] | |];
    repeat first [apply bounded_cleared | apply bounded_run_timers]; exact B.
Qed.

(** Every operation keeps the handles in order. *)
Lemma request_handles_ok (endpoint : string) (options : RequestInit) s :
  handles_ok s -> handles_ok (snd (request endpoint options s)).
Proof.
  intros W. rewrite (request_state endpoint options W).
  apply handles_ok_bounded. rewrite request_final_next_handle.
  now apply request_final_bounded.
Qed.

Lemma perform_handles_ok (c : Call) s : handles_ok s -> handles_ok (snd (perform c s)).
Proof. destruct c; apply request_handles_ok. Qed.

Lemma run_calls_handles_ok (calls : list Call) s : handles_ok s -> handles_ok (run_calls calls s).
Proof.
  revert s. induction calls as [|c calls IH]; intros s W; simpl; [assumption|].
  apply IH. now apply perform_handles_ok.
Qed.

Lemma initial_handles_ok (net : Request -> @Transport number) : handles_ok (initial net).
Proof. split; intros x []. Qed.

Lemma createShopSavvyClient_handles_ok config s :
  handles_ok s -> handles_ok (snd (createShopSavvyClient config s)).
Proof. rewrite createShopSavvyClient_eq. intros W. exact W. Qed.

(** *** The timer of a call *)

Lemma request_final_timer_gone (endpoint : string) (options : RequestInit) s (t : Timer) :
  In t (timers (request_final endpoint options s)) -> timer_id t <> S (next_handle s).
Proof.
  unfold request_final. cbv zeta.
  assert (C : forall x : State, In t (timers (cleared (S (next_handle s)) x)) ->
                        timer_id t <> S (next_handle s)).
  { intros x I. cbn in I. apply filter_In in I. destruct I as [_ N].
    apply negb_true_iff, Nat.eqb_neq in N. exact N. }
  destruct (network s _) as [r|e|]; [destruct (body r); [destruct (reply_ok r)| |] | |];
    try apply C.
  rewrite (proj1 (proj2 (proj2 (run_timers_frame _)))). intros [].
Qed.

Lemma request_final_clears (endpoint : string) (options : RequestInit) s :
  In (EvClearTimeout (S (next_handle s))) (trace (request_final endpoint options s)).
Proof.
  unfold request_final. cbv zeta.
  assert (C : forall x : State, In (EvClearTimeout (S (next_handle s)))
                           (trace (cleared (S (next_handle s)) x))).
  { intros x. cbn. apply in_or_app. right. now left. }
  destruct (network s _) as [r|e|]; [destruct (body r); [destruct (reply_ok r)| |] | |];
    try apply C.
  apply run_timers_trace, C.
Qed.

Lemma fire_abort_logged (ts : list Timer) s (c : nat) :
  In c (aborted (fire ts s)) -> In c (aborted s) \/ In (EvAbort c) (trace (fire ts s)).
Proof.
  revert s. induction ts as [|t ts IH]; intros s I; simpl in *; [now left|].
  destruct (IH _ I) as [I' | I']; [|now right].
  destruct (timer_callback t) as [c']. simpl in I'.
  unfold abort in I'. unfold run_callback, abort.
  destruct (existsb (Nat.eqb c') (aborted (log (EvTimerFired (timer_id t)) s))) eqn:E.
  - now left.
  - simpl in I'. destruct I' as [<- | I']; [|now left].
    right. apply fire_trace. simpl. apply in_or_app. right. now left.
Qed.

(** *** Construction: what is checked, what is stored *)

(** C1. A configuration whose key does not have the format
    [ss_(live|test)_<alphanumeric>], or has no key, makes the construction
    throw one of the two configuration errors, at once; a configuration
    whose key has the format makes it succeed.  Either way the state
    changes in the instance only: nothing is sent, no timer is set. *)
Theorem construction_validates_key config s :
  (valid_key (config_apiKey config) ->
   exists self, fst (createShopSavvyClient config s) = Resolved self) /\
  (~ valid_key (config_apiKey config) ->
   exists e, fst (createShopSavvyClient config s) = Rejected e /\ configuration_error e) /\
  (exists self, snd (createShopSavvyClient config s) = set_this self s) /\
  trace (snd (createShopSavvyClient config s)) = trace s.
Proof.
  rewrite createShopSavvyClient_eq. cbn [fst snd].
  split; [|split; [|split; [eexists; reflexivity | reflexivity]]].
  - intros V. apply valid_key_dec in V. destruct V as (k & -> & E & K).
    rewrite E, K. eexists. reflexivity.
  - intros N. destruct (config_apiKey config) as [k|] eqn:Ek.
    + destruct (k =? "") eqn:E; [exists key_required; split; [reflexivity | now left]|].
      destruct (String_match k api_key_regex) eqn:K.
      * exfalso. apply N. exists k. split; [reflexivity | now apply String_match_key_pattern].
      * exists key_invalid. split; [reflexivity | now right].
    + exists key_required. split; [reflexivity | now left].
Qed.


(** The request that [fetch] gets is [request_sent]: the base address
    followed by the path, the headers, the method and the body of the
    operation, the signal of the call. *)
Lemma request_fetches (endpoint : string) (options : RequestInit) s :
  handles_ok s ->
  In (EvFetch (request_sent endpoint options s)) (trace (snd (request endpoint options s))).
Proof.
  intros W. rewrite (request_state endpoint options W).
  assert (S0 : In (EvFetch (request_sent endpoint options s)) (trace (sent endpoint options s))).
  { cbn. apply in_or_app. right. now left. }
  assert (C : forall id (x : State),
              In (EvFetch (request_sent endpoint options s)) (trace x) ->
              In (EvFetch (request_sent endpoint options s)) (trace (cleared id x))).
  { intros id x I. cbn. apply in_or_app. now left. }
  unfold request_final. cbv zeta.
  destruct (network s _) as [r|e|]; [destruct (body r); [destruct (reply_ok r)| |] | |];
    repeat first [apply C | apply run_timers_trace]; exact S0.
Qed.

(** Every public operation is a call of [request]. *)
Lemma perform_is_request (c : Call) :
  exists (endpoint : string) (options : RequestInit), perform c = request endpoint options.
Proof. destruct c; eexists; eexists; reflexivity. Qed.

(** *** The defaults of the configuration *)

Lemma perform_request (c : Call) : perform c = request (call_endpoint c) (call_options c).
Proof. destruct c; reflexivity. Qed.

Lemma run_calls_this (calls : list Call) s : this (run_calls calls s) = this s.
Proof.
  apply keeps_run_calls with (I := fun x : State => this x = this s); auto.
Qed.

(** The timer that [request] sets has the timeout of the instance as its
    delay. *)
Lemma request_sets_timer (endpoint : string) (options : RequestInit) s :
  handles_ok s ->
  In (EvSetTimeout (S (next_handle s)) (timeout (this s)))
     (trace (snd (request endpoint options s))).
Proof.
  intros W. rewrite (request_state endpoint options W).
  assert (S0 : In (EvSetTimeout (S (next_handle s)) (timeout (this s)))
                  (trace (sent endpoint options s))).
  { cbn. apply in_or_app. left. apply in_or_app. right. now left. }
  assert (C : forall id (x : State),
              In (EvSetTimeout (S (next_handle s)) (timeout (this s))) (trace x) ->
              In (EvSetTimeout (S (next_handle s)) (timeout (this s))) (trace (cleared id x))).
  { intros id x I. cbn. apply in_or_app. now left. }
  unfold request_final. cbv zeta.
  destruct (network s _) as [r|e|]; [destruct (body r); [destruct (reply_ok r)| |] | |];
    repeat first [apply C | apply run_timers_trace]; exact S0.
Qed.

(** C10. A timeout of 0 and an empty base address are replaced by the
    defaults.  The construction does with them what it does when they are
    not given, result and state alike; the instance it leaves has 30000
    as its timeout and the production endpoint as its base address; with
    a key of the format it returns the instance with the key and these
    two values; and every call made with that client, after any calls,
    sets its timer with the delay 30000 and sends its request to the
    production endpoint followed by the path of the operation. *)
Theorem falsy_configuration_defaults (k b : option string) (t : option number) s :
  (createShopSavvyClient
     {| config_apiKey := k; config_baseUrl := b; config_timeout := Some (num_lit 0) |} s =
   createShopSavvyClient
     {| config_apiKey := k; config_baseUrl := b; config_timeout := None |} s /\
   createShopSavvyClient
     {| config_apiKey := k; config_baseUrl := Some ""; config_timeout := t |} s =
   createShopSavvyClient
     {| config_apiKey := k; config_baseUrl := None; config_timeout := t |} s) /\
  (timeout (this (snd (createShopSavvyClient
                         {| config_apiKey := k; config_baseUrl := b;
                            config_timeout := Some (num_lit 0) |} s)))
   = Some (num_lit 30000) /\
   baseUrl (this (snd (createShopSavvyClient
                         {| config_apiKey := k; config_baseUrl := Some "";
                            config_timeout := t |} s)))
   = Some "https://api.shopsavvy.com/v1") /\
  (forall key, k = Some key -> key_pattern key ->
     createShopSavvyClient
       {| config_apiKey := k; config_baseUrl := Some ""; config_timeout := Some (num_lit 0) |} s
     = (Resolved {| apiKey := Some key; baseUrl := Some "https://api.shopsavvy.com/v1";
                    timeout := Some (num_lit 30000) |},
        set_this {| apiKey := Some key; baseUrl := Some "https://api.shopsavvy.com/v1";
                    timeout := Some (num_lit 30000) |} s)) /\
  (forall key (calls : list Call) (c : Call) (x : State),
     k = Some key -> key_pattern key -> handles_ok s ->
     x = run_calls calls
           (snd (createShopSavvyClient
                   {| config_apiKey := k; config_baseUrl := Some "";
                      config_timeout := Some (num_lit 0) |} s)) ->
     In (EvSetTimeout (S (next_handle x)) (Some (num_lit 30000))) (trace (snd (perform c x))) /\
     exists req,
       In (EvFetch req) (trace (snd (perform c x))) /\
       req_url req = "https://api.shopsavvy.com/v1" ++ call_endpoint c).
Proof.
  assert (Z0 : ToBoolean_num (num_lit 0) = false) by now rewrite ToBoolean_lit.
  split; [|split; [|split]].
  - rewrite !createShopSavvyClient_eq. unfold instance_of, or_num, or_str.
    cbn [config_apiKey config_baseUrl config_timeout String.eqb negb].
    rewrite Z0. split; reflexivity.
  - rewrite !createShopSavvyClient_eq. unfold instance_of, or_num, or_str.
    cbn [snd this set_this timeout baseUrl config_apiKey config_baseUrl config_timeout
         String.eqb negb].
    rewrite Z0. split; reflexivity.
  - intros key -> P. rewrite createShopSavvyClient_eq. cbn [config_apiKey].
    assert (E : (key =? "") = false) by (apply String.eqb_neq; now apply key_pattern_nonempty).
    apply String_match_key_pattern in P. rewrite E, P.
    unfold instance_of, or_num, or_str.
    cbn [config_apiKey config_baseUrl config_timeout String.eqb negb]. now rewrite Z0.
  - intros key calls c x -> P W ->.
    set (x := run_calls calls _).
    assert (Wx : handles_ok x).
    { apply run_calls_handles_ok. now apply createShopSavvyClient_handles_ok. }
    assert (T : this x = {| apiKey := Some key; baseUrl := Some "https://api.shopsavvy.com/v1";
                            timeout := Some (num_lit 30000) |}).
    { unfold x. rewrite run_calls_this, createShopSavvyClient_eq.
      cbn [snd this set_this]. unfold instance_of, or_num, or_str.
      cbn [config_apiKey config_baseUrl config_timeout String.eqb negb]. now rewrite Z0. }
    rewrite perform_request. split.
    + pose proof (request_sets_timer (call_endpoint c) (call_options c) Wx) as I.
      rewrite T in I. exact I.
    + exists (request_sent (call_endpoint c) (call_options c) x).
      split; [now apply request_fetches|].
      unfold request_sent, fetch_arg. cbn [req_url]. now rewrite T.
Qed.

(** *** The ends of [request] *)

Lemma reply_ok_false (r : Reply) :
  (status r < 200 \/ 299 < status r)%nat -> reply_ok r = false.
Proof.
  intros O. unfold reply_ok. apply andb_false_iff.
  destruct O as [O|O]; [left | right]; apply Nat.leb_gt; exact O.
Qed.

Lemma reply_ok_true (r : Reply) : (200 <= status r <= 299)%nat -> reply_ok r = true.
Proof.
  intros [L U]. unfold reply_ok. apply andb_true_iff. split; apply Nat.leb_le; assumption.
Qed.

(** C2, as the code has it.  When the reply has a status outside 200 to
    299 and a JSON body: if the body is an object whose [error] is a
    non-empty string [X], the call rejects with an error whose message is
    exactly [X]; if the body is not [null] and has no [error], or a falsy
    one such as the empty string, the message is
    [HTTP <status>: <statusText>], from the status and the status text of
    the reply. *)
Theorem error_status_message (endpoint : string) (options : RequestInit) s (r : Reply)
    (data : json) :
  handles_ok s ->
  network s (request_sent endpoint options s) = Responds r ->
  (status r < 200 \/ 299 < status r)%nat ->
  body r = BodyJson data ->
  (forall X, error_of data = Some (JStr X) -> X <> "" ->
     fst (request endpoint options s) = Rejected (new_Error X)) /\
  (data <> JNull -> ToBoolean (error_of data) = false ->
     fst (request endpoint options s) =
     Rejected (new_Error ("HTTP " ++ nat_ToString (status r) ++ ": " ++ statusText r))).
Proof.
  intros W N O B. rewrite (request_outcome endpoint options W), N.
  cbn [request_result]. rewrite B, (reply_ok_false r O). split.
  - intros X E Ne. destruct data; try discriminate. cbn in E. cbn [status_error].
    rewrite E. cbn. apply String.eqb_neq in Ne. now rewrite Ne.
  - intros Nn F. destruct data; try congruence; try reflexivity.
    cbn in F. cbn [status_error]. unfold or_message.
    destruct (lookup "error" fields) as [x|]; [rewrite F|]; reflexivity.
Qed.

Lemma sent_has_timer (endpoint : string) (options : RequestInit) s :
  exists t, In t (timers (sent endpoint options s)) /\
            timer_callback t = AbortCallback (next_handle s).
Proof.
  eexists. split; [cbn; apply in_or_app; right; left; reflexivity | reflexivity].
Qed.

(** C3. When nothing comes from the transport, the timer of the call
    fires and aborts the request: the call rejects with an error whose
    message is [Request timeout after <timeout>ms], with the timeout of
    the instance; the controller of the call has aborted, and no timer of
    the call is left pending. *)
Theorem timeout_rejects_and_aborts (endpoint : string) (options : RequestInit) s (t : number) :
  handles_ok s ->
  timeout (this s) = Some t ->
  network s (request_sent endpoint options s) = Silent ->
  fst (request endpoint options s) =
    Rejected (new_Error ("Request timeout after " ++ ToString_num t ++ "ms")) /\
  In (next_handle s) (aborted (snd (request endpoint options s))) /\
  In (EvAbort (next_handle s)) (trace (snd (request endpoint options s))) /\
  (forall tm, In tm (timers (snd (request endpoint options s))) ->
              timer_id tm <> S (next_handle s)).
Proof.
  intros W T N.
  rewrite (request_outcome endpoint options W), (request_state endpoint options W).
  split; [|split; [|split]].
  - rewrite N. cbn [request_result]. unfold timeout_error. now rewrite T.
  - unfold request_final. cbv zeta. rewrite N. cbn [cleared clearTimeout snd aborted log set_timers].
    apply run_timers_aborted. right. apply sent_has_timer.
  - unfold request_final. cbv zeta. rewrite N. cbn [cleared clearTimeout snd trace log set_timers].
    apply in_or_app. left.
    assert (I : In (next_handle s) (aborted (run_timers (sent endpoint options s)))).
    { apply run_timers_aborted. right. apply sent_has_timer. }
    unfold run_timers in *. apply fire_abort_logged in I. destruct I as [I | I]; [|exact I].
    cbn in I. destruct W as [A _]. apply A in I. lia.
  - intros tm. apply request_final_timer_gone.
Qed.

(** C4. When the reply has a status from 200 to 299 and a JSON body, the
    call resolves with the parsed body, whatever it is: no property of it
    is read, so an envelope whose [success] is [false] resolves like any
    other. *)
Theorem success_resolves_with_envelope (endpoint : string) (options : RequestInit) s
    (r : Reply) (data : json) :
  handles_ok s ->
  network s (request_sent endpoint options s) = Responds r ->
  (200 <= status r <= 299)%nat ->
  body r = BodyJson data ->
  fst (request endpoint options s) = Resolved data.
Proof.
  intros W N O B. rewrite (request_outcome endpoint options W), N.
  cbn [request_result]. now rewrite B, (reply_ok_true r O).
Qed.

(** C8. Whatever the transport does, [request] sets one timer and clears
    it: when the call is over (resolved, rejected after an abort, rejected
    with another error) the trace has the [clearTimeout] of that timer
    and the timer is not pending. *)
Theorem timer_cleared_on_every_exit (endpoint : string) (options : RequestInit) s :
  handles_ok s ->
  In (EvSetTimeout (S (next_handle s)) (timeout (this s)))
     (trace (snd (request endpoint options s))) /\
  In (EvClearTimeout (S (next_handle s))) (trace (snd (request endpoint options s))) /\
  (forall t, In t (timers (snd (request endpoint options s))) ->
             timer_id t <> S (next_handle s)).
Proof.
  intros W. rewrite (request_state endpoint options W). split; [|split].
  - assert (S0 : In (EvSetTimeout (S (next_handle s)) (timeout (this s)))
                    (trace (sent endpoint options s))).
    { cbn. apply in_or_app. left. apply in_or_app. right. now left. }
    assert (C : forall id (x : State),
                In (EvSetTimeout (S (next_handle s)) (timeout (this s))) (trace x) ->
                In (EvSetTimeout (S (next_handle s)) (timeout (this s))) (trace (cleared id x))).
    { intros id x I. cbn. apply in_or_app. now left. }
    unfold request_final. cbv zeta.
    destruct (network s _) as [r|e|]; [destruct (body r); [destruct (reply_ok r)| |] | |];
      repeat first [apply C | apply run_timers_trace]; exact S0.
  - apply request_final_clears.
  - intros t. apply request_final_timer_gone.
Qed.

(** *** The parameters the operations send *)

Ltac read_query :=
  eexists; split; [reflexivity|]; rewrite parse_query_toString.

Ltac read_body :=
  eexists; eexists; split; [reflexivity|]; split; [apply JSON_parse_stringify|].

Ltac by_options o :=
  let r := fresh "r" in let f := fresh "f" in
  destruct o as [[r|] [f|]]; unfold given, nonempty; cbn;
  try destruct (r =? ""); try destruct (f =? ""); repeat split; reflexivity.

(** C5, as the code has it.  In every operation that has options, the
    key of an option is in the query string, or in the body, as they are
    read back, exactly when the caller gave the option a non-empty value,
    and then with that value: an option that is omitted and one that is
    the empty string both leave the key out. *)
Theorem optional_parameters_when_nonempty
    (identifier startDate endDate frequency : string) (identifiers : list string)
    (options : Options) :
  (exists q, getProductDetails identifier options = request ("/products/details?" ++ q) no_init /\
             lookup "format" (parse_query q) = nonempty (format options)) /\
  (exists q, getProductDetailsBatch identifiers options
             = request ("/products/details?" ++ q) no_init /\
             lookup "format" (parse_query q) = nonempty (format options)) /\
  (exists q, getCurrentOffers identifier options = request ("/products/offers?" ++ q) no_init /\
             lookup "retailer" (parse_query q) = nonempty (retailer options) /\
             lookup "format" (parse_query q) = nonempty (format options)) /\
  (exists q, getCurrentOffersBatch identifiers options
             = request ("/products/offers?" ++ q) no_init /\
             lookup "retailer" (parse_query q) = nonempty (retailer options) /\
             lookup "format" (parse_query q) = nonempty (format options)) /\
  (exists q, getPriceHistory identifier startDate endDate options
             = request ("/products/history?" ++ q) no_init /\
             lookup "retailer" (parse_query q) = nonempty (retailer options) /\
             lookup "format" (parse_query q) = nonempty (format options)) /\
  (exists b o, scheduleProductMonitoring identifier frequency options
               = request "/products/schedule"
                   {| init_method := Some "POST"; init_body := Some b; init_headers := None |} /\
               JSON_parse_object b = Some o /\
               lookup "retailer" o = nonempty (retailer options)) /\
  (exists b o, scheduleProductMonitoringBatch identifiers frequency options
               = request "/products/schedule"
                   {| init_method := Some "POST"; init_body := Some b; init_headers := None |} /\
               JSON_parse_object b = Some o /\
               lookup "retailer" o = nonempty (retailer options)).
Proof.
  repeat split.
  - read_query. rewrite getProductDetails_entries. by_options options.
  - read_query. rewrite getProductDetailsBatch_entries. by_options options.
  - read_query. rewrite getCurrentOffers_entries. by_options options.
  - read_query. rewrite getCurrentOffersBatch_entries. by_options options.
  - read_query. rewrite getPriceHistory_entries. by_options options.
  - read_body. rewrite scheduleProductMonitoring_entries. by_options options.
  - read_body. rewrite scheduleProductMonitoringBatch_entries. by_options options.
Qed.

(** C6, as the code has it.  The query string of a call with one
    identifier reads back as: the key [identifier] with the identifier,
    once; for the price history, [start_date] and [end_date]; then
    [retailer] and [format], each exactly when the caller gave it a
    non-empty value; and nothing else. *)
Theorem single_identifier_query (identifier startDate endDate : string) (options : Options) :
  (exists q, getProductDetails identifier options = request ("/products/details?" ++ q) no_init /\
             parse_query q = ("identifier", identifier) :: given "format" (format options)) /\
  (exists q, getCurrentOffers identifier options = request ("/products/offers?" ++ q) no_init /\
             parse_query q =
             (("identifier", identifier) :: given "retailer" (retailer options)
                ++ given "format" (format options))%list) /\
  (exists q, getPriceHistory identifier startDate endDate options
             = request ("/products/history?" ++ q) no_init /\
             parse_query q =
             (("identifier", identifier) :: ("start_date", startDate) :: ("end_date", endDate)
                :: given "retailer" (retailer options) ++ given "format" (format options))%list).
Proof.
  repeat split.
  - read_query. apply getProductDetails_entries.
  - read_query. apply getCurrentOffers_entries.
  - read_query. apply getPriceHistory_entries.
Qed.

(** C7. In a batch call the list of identifiers goes as one value, the
    identifiers in order with a comma between two of them, under the key
    [identifiers], and there is no key [identifier]: in the query string
    of the two GET operations and in the body of the POST and the DELETE
    one, as they are read back.  When there is an identifier and none has a
    comma in it, splitting the value at the commas gives the list back. *)
Theorem batch_identifiers_comma_joined
    (identifiers : list string) (frequency : string) (options : Options) :
  (exists q, getProductDetailsBatch identifiers options
             = request ("/products/details?" ++ q) no_init /\
             lookup "identifiers" (parse_query q) = Some (String.concat "," identifiers) /\
             count_key "identifiers" (parse_query q) = 1 /\
             has_key "identifier" (parse_query q) = false) /\
  (exists q, getCurrentOffersBatch identifiers options
             = request ("/products/offers?" ++ q) no_init /\
             lookup "identifiers" (parse_query q) = Some (String.concat "," identifiers) /\
             count_key "identifiers" (parse_query q) = 1 /\
             has_key "identifier" (parse_query q) = false) /\
  (exists b o, scheduleProductMonitoringBatch identifiers frequency options
               = request "/products/schedule"
                   {| init_method := Some "POST"; init_body := Some b; init_headers := None |} /\
               JSON_parse_object b = Some o /\
               lookup "identifiers" o = Some (String.concat "," identifiers) /\
               count_key "identifiers" o = 1 /\
               has_key "identifier" o = false) /\
  (exists b o, removeProductsFromSchedule identifiers
               = request "/products/schedule"
                   {| init_method := Some "DELETE"; init_body := Some b; init_headers := None |} /\
               JSON_parse_object b = Some o /\
               lookup "identifiers" o = Some (String.concat "," identifiers) /\
               count_key "identifiers" o = 1 /\
               has_key "identifier" o = false) /\
  (identifiers <> [] ->
   Forall (fun x => all_chars (is_not ",") x = true) identifiers ->
   split_on "," (join "," identifiers) = identifiers).
Proof.
  split; [|split; [|split; [|split]]].
  - read_query. rewrite getProductDetailsBatch_entries, join_concat.
    generalize (String.concat "," identifiers). intros j. by_options options.
  - read_query. rewrite getCurrentOffersBatch_entries, join_concat.
    generalize (String.concat "," identifiers). intros j. by_options options.
  - read_body. rewrite scheduleProductMonitoringBatch_entries, join_concat.
    generalize (String.concat "," identifiers). intros j. by_options options.
  - read_body. unfold removeProductsFromSchedule_body.
    rewrite join_concat. repeat split.
  - intros N F. rewrite join_concat. now apply split_on_concat.
Qed.

End ClientProperties.

(** * Further properties of the client *)

Lemma key_pattern_prefix (env rest : string) :
  env = "live" \/ env = "test" ->
  key_pattern ("ss_" ++ env ++ "_" ++ rest) ->
  all_chars alphanumeric rest = true.
Proof.
  intros E (env' & rest' & E' & Eq & _ & A).
  destruct E as [-> | ->], E' as [-> | ->]; cbn in Eq; try discriminate;
    injection Eq as <-; exact A.
Qed.

(** ** Objects: writing and reading a property *)

Lemma lookup_obj_set (k k' v : string) (o : Obj) :
  lookup k (obj_set k' v o) = if k' =? k then Some v else lookup k o.
Proof.
  induction o as [|[k0 v0] o IH]; cbn.
  - reflexivity.
  - destruct (String.eqb_spec k0 k') as [-> | N0]; cbn.
    + destruct (k' =? k); reflexivity.
    + rewrite IH. destruct (String.eqb_spec k0 k) as [-> | N1]; [|reflexivity].
      apply String.eqb_neq in N0. rewrite String.eqb_sym in N0. now rewrite N0.
Qed.

Lemma lookup_app (A : Type) (k : string) (a b : list (string * A)) :
  lookup k (a ++ b)%list = match lookup k a with Some v => Some v | None => lookup k b end.
Proof.
  induction a as [|[k0 v0] a IH]; cbn; [reflexivity|].
  destruct (k0 =? k); [reflexivity | exact IH].
Qed.

(** In [{ ...target, ...src }] a property is the one [src] wrote last, if
    it wrote one, and the one of [target] otherwise. *)
Lemma lookup_spread (k : string) (target src : Obj) :
  lookup k (spread target src) =
  match lookup k (rev src) with Some v => Some v | None => lookup k target end.
Proof.
  unfold spread. revert target. induction src as [|[k' v'] src IH]; intros target; cbn.
  - reflexivity.
  - rewrite IH, lookup_app, lookup_obj_set. cbn.
    destruct (lookup k (rev src)); [reflexivity|]. destruct (k' =? k); reflexivity.
Qed.

Lemma spread_nil (target : Obj) : spread target [] = target.
Proof. reflexivity. Qed.

(** Two objects with the same [JSON.stringify] are the same object. *)
Lemma JSON_stringify_inj (a b : Obj) : JSON_stringify a = JSON_stringify b -> a = b.
Proof.
  intros E. apply (f_equal JSON_parse_object) in E. rewrite !JSON_parse_stringify in E.
  congruence.
Qed.

(** ** The events of a call *)

Lemma fetches_app (number : Type) (a b : list (@Event number)) :
  fetches (a ++ b)%list = (fetches a ++ fetches b)%list.
Proof.
  induction a as [|e a IH]; cbn; [reflexivity|]. destruct e; cbn; now rewrite ?IH.
Qed.

Section ClientCoverage.

Context {number : Type} `{JsNumber number}.

Local Abbreviation Event := (@Event number).
Local Abbreviation State := (@State number).
Local Abbreviation ShopSavvyConfig := (@ShopSavvyConfig number).
Local Abbreviation ShopSavvyDataAPI := (@ShopSavvyDataAPI number).
Local Abbreviation json := (@json number).
Local Abbreviation Reply := (@Reply number).

Implicit Types (s : State) (config : ShopSavvyConfig).

(** ** The constructor *)

(** X1. The constructor tests the presence of the key first: without a
    key, or with the empty string, it throws the error that asks for a
    key; with a key that is not empty and has not the format, the error
    about the format. *)
Theorem constructor_error_precedence config s :
  (config_apiKey config = None \/ config_apiKey config = Some "" ->
   fst (createShopSavvyClient config s) = Rejected key_required) /\
  (forall k, config_apiKey config = Some k -> k <> "" -> ~ key_pattern k ->
   fst (createShopSavvyClient config s) = Rejected key_invalid).
Proof.
  rewrite createShopSavvyClient_eq. cbn [fst]. split.
  - intros [-> | ->]; reflexivity.
  - intros k -> N P. apply String.eqb_neq in N. rewrite N.
    destruct (String_match k api_key_regex) eqn:K; [|reflexivity].
    apply String_match_key_pattern in K. contradiction.
Qed.

(** X2. A key that starts with [ss_live_] or [ss_test_] is refused, with
    the error about the format, as soon as one character after the prefix
    is not an ASCII letter or digit (an underscore, a hyphen): the prefix
    that the message names is not enough. *)
Theorem prefixed_key_outside_alphabet_refused
    (env rest : string) (b : option string) (t : option number) s :
  env = "live" \/ env = "test" ->
  all_chars alphanumeric rest = false ->
  fst (createShopSavvyClient
         {| config_apiKey := Some ("ss_" ++ env ++ "_" ++ rest); config_baseUrl := b;
            config_timeout := t |} s)
  = Rejected key_invalid.
Proof.
  intros E A. rewrite createShopSavvyClient_eq. cbn [fst config_apiKey].
  change (("ss_" ++ env ++ "_" ++ rest =? "")%string) with false. cbv iota.
  destruct (String_match _ api_key_regex) eqn:K; [|reflexivity].
  apply String_match_key_pattern in K. apply key_pattern_prefix in K; [congruence | exact E].
Qed.

(** ** The requests a call adds *)

Lemma adds_log s x reqs (e : Event) :
  adds s x reqs -> adds s (log e x) (reqs ++ fetches [e])%list.
Proof.
  intros (l & E & F). exists (l ++ [e])%list. cbn [trace log].
  rewrite E, app_assoc, fetches_app, F. auto.
Qed.

Lemma adds_quiet s x reqs (e : Event) :
  fetches [e] = [] -> adds s x reqs -> adds s (log e x) reqs.
Proof.
  intros Q A. apply (adds_log e) in A. now rewrite Q, app_nil_r in A.
Qed.

Lemma adds_abort s x reqs (c : nat) : adds s x reqs -> adds s (abort c x) reqs.
Proof.
  intros A. unfold abort. destruct (existsb _ _); [exact A|].
  apply adds_quiet; [reflexivity|]. exact A.
Qed.

Lemma adds_fire s (ts : list Timer) x reqs : adds s x reqs -> adds s (fire ts x) reqs.
Proof.
  revert x. induction ts as [|t ts IH]; intros x A; cbn; [exact A|].
  apply IH. destruct (timer_callback t). cbn. apply adds_abort.
  apply adds_quiet; [reflexivity | exact A].
Qed.

Lemma adds_run_timers s x reqs : adds s x reqs -> adds s (run_timers x) reqs.
Proof. intros A. unfold run_timers. apply adds_fire. exact A. Qed.

Lemma adds_cleared s x reqs (id : nat) : adds s x reqs -> adds s (cleared id x) reqs.
Proof. intros A. unfold cleared. cbn. apply adds_quiet; [reflexivity | exact A]. Qed.

Lemma adds_sent (endpoint : string) (options : RequestInit) s :
  adds s (sent endpoint options s) [request_sent endpoint options s].
Proof.
  unfold sent. cbv zeta.
  apply (adds_log (reqs := [])). apply adds_quiet; [reflexivity|].
  exists []. cbn. now rewrite app_nil_r.
Qed.

(** A call of [request] adds events to the trace, and one request among
    them: the one it hands to [fetch]. *)
Lemma request_adds (endpoint : string) (options : RequestInit) s :
  handles_ok s ->
  adds s (snd (request endpoint options s)) [request_sent endpoint options s].
Proof.
  intros W. rewrite (request_state endpoint options W).
  pose proof (adds_sent endpoint options s) as A.
  unfold request_final. cbv zeta.
  destruct (network s _) as [r|e|]; [destruct (body r); [destruct (reply_ok r)| |] | |];
    repeat first [apply adds_cleared | apply adds_run_timers]; exact A.
Qed.

Lemma call_options_headers (c : Call) : init_headers (call_options c) = None.
Proof. destruct c; reflexivity. Qed.

(** ** What every operation sends *)

Lemma adds_refl s : adds s s [].
Proof. exists []. split; [now rewrite app_nil_r | reflexivity]. Qed.

Lemma adds_same s x (reqs reqs' : list Request) : adds s x reqs -> adds s x reqs' -> reqs = reqs'.
Proof.
  intros (l & E & F) (l' & E' & F'). rewrite E in E'. apply app_inv_head in E'. congruence.
Qed.

(** After the call of [fetch], a call of [request] adds events to the
    trace and no request among them. *)
Lemma request_after_fetch (endpoint : string) (options : RequestInit) s :
  handles_ok s ->
  adds (sent endpoint options s) (snd (request endpoint options s)) [].
Proof.
  intros W. rewrite (request_state endpoint options W).
  pose proof (adds_refl (sent endpoint options s)) as A.
  unfold request_final. cbv zeta.
  destruct (network s _) as [r|e|]; [destruct (body r); [destruct (reply_ok r)| |] | |];
    repeat first [apply adds_cleared | apply adds_run_timers]; exact A.
Qed.

(** X3. Every public operation hands to [fetch] exactly one request, with
    exactly three headers: [Authorization] with [Bearer] and the key of
    the instance, [Content-Type] and [User-Agent]; and with the signal of
    a controller made for this call, which has not aborted when [fetch]
    gets it: the call of [fetch] is the next event after the controller
    is made and the timer set, and in the state these leave the signal is
    not aborted. *)
Theorem operations_send_default_headers (c : Call) s (k : string) :
  handles_ok s ->
  apiKey (this s) = Some k ->
  exists req rest,
    adds s (snd (perform c s)) [req] /\
    req_headers req =
      [ ("Authorization", "Bearer " ++ k);
        ("Content-Type", "application/json");
        ("User-Agent", "ShopSavvy-TypeScript-SDK/1.0.0") ] /\
    req_signal req = Some (next_handle s) /\
    ~ In (next_handle s) (aborted s) /\
    trace (before_fetch s) =
      (trace s ++ [EvSetTimeout (S (next_handle s)) (timeout (this s))])%list /\
    trace (snd (perform c s)) = (trace (before_fetch s) ++ EvFetch req :: rest)%list /\
    fetches rest = [] /\
    signal_aborted (req_signal req) (before_fetch s) = false.
Proof.
  intros W K. set (req := request_sent (call_endpoint c) (call_options c) s).
  assert (Hh : req_headers req =
               [ ("Authorization", "Bearer " ++ k);
                 ("Content-Type", "application/json");
                 ("User-Agent", "ShopSavvy-TypeScript-SDK/1.0.0") ]).
  { unfold req, request_sent, fetch_arg. cbn [req_headers].
    rewrite call_options_headers. unfold default_headers. now rewrite K. }
  rewrite perform_request.
  destruct (request_after_fetch (call_endpoint c) (call_options c) W) as (rest & E & F).
  exists req, rest.
  split; [now apply request_adds|]. split; [exact Hh|]. split; [reflexivity|].
  split; [intros I; destruct W as [A _]; apply A in I; lia|].
  split; [reflexivity|].
  split; [rewrite E; unfold sent; cbv zeta; cbn [trace log]; now rewrite <- app_assoc|].
  split; [exact F|].
  cbn. now apply fresh_controller.
Qed.

(** X4. In [request], the headers of the caller are spread after the three
    defaults: a header the caller names has the caller's value (the last
    one written), the others keep the default. *)
Theorem caller_headers_override (endpoint : string) (options : RequestInit) (h : Obj) s
    (name : string) :
  handles_ok s ->
  init_headers options = Some h ->
  exists req,
    adds s (snd (request endpoint options s)) [req] /\
    lookup name (req_headers req) =
      match lookup name (rev h) with
      | Some v => Some v
      | None => lookup name (default_headers (this s))
      end.
Proof.
  intros W E. exists (request_sent endpoint options s). split; [now apply request_adds|].
  unfold request_sent, fetch_arg. cbn [req_headers]. rewrite E. apply lookup_spread.
Qed.

Lemma urlencode_byte_query_char (c : ascii) : all_chars query_char (urlencode_byte c) = true.
Proof. destruct c as [[] [] [] [] [] [] [] []]; reflexivity. Qed.

Lemma urlencode_query_char (x : string) : all_chars query_char (urlencode x) = true.
Proof.
  induction x as [|c x IH]; cbn; [reflexivity|].
  now rewrite all_chars_append, urlencode_byte_query_char, IH.
Qed.

Lemma toString_query_char (params : list (string * string)) :
  all_chars query_char (URLSearchParams_toString params) = true.
Proof.
  unfold URLSearchParams_toString. rewrite join_concat.
  induction params as [|kv params IH]; [reflexivity|].
  assert (P : all_chars query_char (piece kv) = true).
  { unfold piece. now rewrite !all_chars_append, !urlencode_query_char. }
  destruct params as [|kv' params]; [exact P|].
  change (String.concat "&" (map piece (kv :: kv' :: params)))
    with (piece kv ++ String "&" (String.concat "&" (map piece (kv' :: params)))).
  rewrite all_chars_append, P. cbn [all_chars andb]. exact IH.
Qed.

(** X5. The method, the address and the body of each operation: the
    address is the base address of the instance followed by the route of
    the operation and, for the five operations with parameters, by [?] and
    a query string made of letters, digits and [* - . _ + % = &] only; the
    two POST and the two DELETE operations name their method and have a
    body, the others name no method and have none. *)
Theorem operation_routes (c : Call) s (b : string) :
  handles_ok s ->
  baseUrl (this s) = Some b ->
  exists req,
    adds s (snd (perform c s)) [req] /\
    req_method req = fst (fst (route c)) /\
    (req_body req = None <-> fst (fst (route c)) = None) /\
    exists q,
      req_url req = b ++ snd (fst (route c)) ++ q /\
      if snd (route c)
      then exists q', q = String "?" q' /\ all_chars query_char q' = true
      else q = "".
Proof.
  intros W B. exists (request_sent (call_endpoint c) (call_options c) s).
  rewrite perform_request. split; [now apply request_adds|].
  unfold request_sent, fetch_arg. cbn [req_method req_body req_url]. rewrite B.
  cbn [ToString_str].
  destruct c; cbn [call_endpoint call_options route fst snd init_method init_body no_init];
    (split; [reflexivity|]); (split; [split; intros; (reflexivity || discriminate)|]);
    try (exists ""; split; reflexivity);
    (eexists; split; [reflexivity|]);
    (eexists; split; [reflexivity | apply toString_query_char]).
Qed.

(** X6. Every operation, a batch one like the others, makes one request;
    after a sequence of calls the trace has one request more for each
    call. *)
Theorem one_fetch_per_call (calls : list Call) s :
  handles_ok s ->
  (forall c, exists req, adds s (snd (perform c s)) [req]) /\
  List.length (fetches (trace (run_calls calls s))) =
  List.length (fetches (trace s)) + List.length calls.
Proof.
  intros W. split.
  - intros c. eexists. rewrite perform_request. now apply request_adds.
  - revert s W. induction calls as [|c calls IH]; intros s W; cbn [run_calls List.length].
    + lia.
    + rewrite IH by now apply perform_handles_ok.
      rewrite perform_request.
      destruct (request_adds (call_endpoint c) (call_options c) W) as (l & E & F).
      rewrite E, fetches_app, length_app, F. cbn. lia.
Qed.

(** ** Calls one after the other *)

Lemma request_final_timers_nil (endpoint : string) (options : RequestInit) s :
  timers s = [] -> timers (request_final endpoint options s) = [].
Proof.
  intros T.
  assert (C : timers (cleared (S (next_handle s)) (sent endpoint options s)) = []).
  { cbn. rewrite T. cbn. now rewrite Nat.eqb_refl. }
  assert (C2 : forall x : State, timers x = [] -> timers (cleared (S (next_handle s)) x) = []).
  { intros x E. cbn. now rewrite E. }
  unfold request_final. cbv zeta.
  destruct (network s _) as [r|e|]; [destruct (body r); [destruct (reply_ok r)| |] | |];
    first [ exact C
          | apply C2; exact C
          | apply (proj1 (proj2 (proj2 (run_timers_frame _))))
          | apply C2; apply (proj1 (proj2 (proj2 (run_timers_frame _)))) ].
Qed.

(** X7. No call leaves a timer behind: from a state without pending
    timers, after any sequence of calls of the public operations, however
    each one ends, no timer is pending. *)
Theorem no_timer_left_after_calls (calls : list Call) s :
  handles_ok s ->
  timers s = [] ->
  timers (run_calls calls s) = [].
Proof.
  revert s. induction calls as [|c calls IH]; intros s W T; cbn [run_calls]; [exact T|].
  apply IH; [now apply perform_handles_ok|].
  rewrite perform_request, (request_state _ _ W). now apply request_final_timers_nil.
Qed.

Lemma request_next_handle (endpoint : string) (options : RequestInit) s :
  handles_ok s -> next_handle (snd (request endpoint options s)) = S (S (next_handle s)).
Proof. intros W. rewrite (request_state _ _ W). apply request_final_next_handle. Qed.

Lemma run_calls_next_handle (calls : list Call) s :
  handles_ok s -> next_handle (run_calls calls s) = next_handle s + 2 * List.length calls.
Proof.
  revert s. induction calls as [|c calls IH]; intros s W; cbn [run_calls List.length]; [lia|].
  rewrite IH by now apply perform_handles_ok.
  rewrite perform_request, (request_next_handle _ _ W). lia.
Qed.

Lemma run_calls_network (calls : list Call) s : network (run_calls calls s) = network s.
Proof.
  apply keeps_run_calls with (I := fun x : State => network x = network s); auto.
Qed.

(** X8. Calls do not disturb one another: each call takes a controller
    and a timer of its own, two handles that no earlier call had; and
    after any sequence of earlier calls, timed out or not, a call whose
    reply has a status from 200 to 299 and a JSON body resolves with that
    body. *)
Theorem calls_do_not_interfere (calls : list Call) (c : Call) s (r : Reply) (data : json) :
  handles_ok s ->
  next_handle (run_calls calls s) = next_handle s + 2 * List.length calls /\
  (network s (request_sent (call_endpoint c) (call_options c) (run_calls calls s))
     = Responds r ->
   (200 <= status r <= 299)%nat ->
   body r = BodyJson data ->
   fst (perform c (run_calls calls s)) = Resolved data).
Proof.
  intros W. split; [now apply run_calls_next_handle|].
  intros N O B. pose proof (run_calls_handles_ok calls W) as W'.
  rewrite perform_request, (request_outcome _ _ W'), run_calls_network, N.
  cbn [request_result]. now rewrite B, (reply_ok_true r O).
Qed.

(** ** The other ends of [request] *)

(** X9. An error that is not named [AbortError] reaches the caller as it
    is: the one [fetch] rejects with (a network failure), and the one
    that reading the body rejects with (a body that is not JSON),
    whatever the status of the reply: a 500 with a body that is not JSON
    gives the parse error, not the status line, and a 200 with such a
    body rejects. *)
Theorem other_errors_propagate (endpoint : string) (options : RequestInit) s (e : JsError) :
  handles_ok s ->
  name e <> "AbortError" ->
  (network s (request_sent endpoint options s) = Fails e ->
   fst (request endpoint options s) = Rejected e) /\
  (forall r, network s (request_sent endpoint options s) = Responds r ->
             body r = BodyInvalid e ->
             fst (request endpoint options s) = Rejected e).
Proof.
  intros W Ne. apply String.eqb_neq in Ne.
  rewrite (request_outcome endpoint options W). split.
  - intros ->. cbn [request_result]. unfold rethrown. now rewrite Ne.
  - intros r -> B. cbn [request_result]. rewrite B. unfold rethrown. now rewrite Ne.
Qed.

(** X10. The [catch] block knows a timeout by the name of the error only:
    when [fetch] rejects with an error named [AbortError] that no timer of
    the call caused, the call rejects with the timeout message all the
    same, although the controller of the call has not aborted. *)
Theorem abort_named_error_reported_as_timeout
    (endpoint : string) (options : RequestInit) s (e : JsError) :
  handles_ok s ->
  name e = "AbortError" ->
  network s (request_sent endpoint options s) = Fails e ->
  fst (request endpoint options s) =
    Rejected (new_Error ("Request timeout after " ++ ToString_optnum (timeout (this s)) ++ "ms")) /\
  ~ In (next_handle s) (aborted (snd (request endpoint options s))).
Proof.
  intros W Ne N.
  rewrite (request_outcome endpoint options W), (request_state endpoint options W).
  unfold request_final. cbv zeta. rewrite N. cbn [request_result]. unfold rethrown.
  rewrite Ne. cbn [String.eqb Ascii.eqb Bool.eqb]. split; [reflexivity|].
  cbn. intros I. destruct W as [A _]. apply A in I. lia.
Qed.

(** X11. When the status is outside 200 to 299 and the body is the JSON
    value [null], reading [data.error] throws: the call rejects with a
    [TypeError], and neither with a message of the server nor with the
    status line. *)
Theorem null_error_body_type_error (endpoint : string) (options : RequestInit) s (r : Reply) :
  handles_ok s ->
  network s (request_sent endpoint options s) = Responds r ->
  (status r < 200 \/ 299 < status r)%nat ->
  body r = BodyJson JNull ->
  fst (request endpoint options s) =
    Rejected (new_TypeError "Cannot read properties of null (reading 'error')").
Proof.
  intros W N O B. rewrite (request_outcome endpoint options W), N.
  cbn [request_result]. now rewrite B, (reply_ok_false r O).
Qed.

(** X12. When the status is outside 200 to 299 and the [error] of the
    body is truthy, [new Error] converts that value to a string, whatever
    its type: a number is printed, [true] gives [true], an array the join
    of its elements (an inner array joined in turn, [null] empty), an
    object [[object Object]].  The conversion throws when the value is an
    object with a property [toString] of its own, or an array with such
    an object in it: the call then rejects with that [TypeError], and not
    with an [Error]. *)
Theorem truthy_error_is_printed (endpoint : string) (options : RequestInit) s (r : Reply)
    (data x : json) :
  handles_ok s ->
  network s (request_sent endpoint options s) = Responds r ->
  (status r < 200 \/ 299 < status r)%nat ->
  body r = BodyJson data ->
  error_of data = Some x ->
  ToBoolean (Some x) = true ->
  (forall m, ToString x = Some m ->
     fst (request endpoint options s) = Rejected (new_Error m)) /\
  (ToString x = None ->
     fst (request endpoint options s) =
     Rejected (new_TypeError "Cannot convert object to primitive value")) /\
  (forall n, x = JNum n ->
     fst (request endpoint options s) = Rejected (new_Error (ToString_num n))) /\
  (forall b, x = JBool b ->
     fst (request endpoint options s) = Rejected (new_Error "true")) /\
  (forall a b c : string, x = JArr [JStr a; JNull; JArr [JStr b; JStr c]] ->
     fst (request endpoint options s) = Rejected (new_Error (a ++ ",," ++ b ++ "," ++ c))) /\
  (forall fields, x = JObj fields -> lookup "toString" fields = None ->
     fst (request endpoint options s) = Rejected (new_Error "[object Object]")) /\
  (forall fields v, x = JObj fields -> lookup "toString" fields = Some v ->
     fst (request endpoint options s) =
     Rejected (new_TypeError "Cannot convert object to primitive value")) /\
  (forall a fields v, x = JArr [JStr a; JObj fields] -> lookup "toString" fields = Some v ->
     fst (request endpoint options s) =
     Rejected (new_TypeError "Cannot convert object to primitive value")).
Proof.
  intros W N O B E T. rewrite (request_outcome endpoint options W), N.
  cbn [request_result]. rewrite B, (reply_ok_false r O).
  destruct data; try discriminate. cbn in E. cbn [status_error]. rewrite E.
  unfold or_message. rewrite T.
  split; [|split; [|split; [|split; [|split; [|split; [|split]]]]]].
  - intros m ->. reflexivity.
  - intros ->. reflexivity.
  - intros n ->. reflexivity.
  - intros b ->. cbn in T. rewrite T. reflexivity.
  - intros a b c ->. cbn. now rewrite !append_nil_r, !append_assoc.
  - intros fs -> L. cbn. now rewrite L.
  - intros fs v -> L. cbn. now rewrite L.
  - intros a fs v -> L. cbn. now rewrite L.
Qed.

(** X13. The timer is cleared when the reply arrives, before the body is
    read: when the body never ends, the call stays pending, with no timer
    pending and the controller not aborted, so that nothing is left to
    end it. *)
Theorem stalled_body_is_not_timed_out (endpoint : string) (options : RequestInit) s (r : Reply) :
  handles_ok s ->
  network s (request_sent endpoint options s) = Responds r ->
  body r = BodyStalls ->
  fst (request endpoint options s) = Pending /\
  timers (snd (request endpoint options s)) = [] /\
  ~ In (next_handle s) (aborted (snd (request endpoint options s))) /\
  In (EvClearTimeout (S (next_handle s))) (trace (snd (request endpoint options s))).
Proof.
  intros W N B.
  rewrite (request_outcome endpoint options W), (request_state endpoint options W).
  split; [now rewrite N; cbn [request_result]; rewrite B|].
  split; [|split; [|apply request_final_clears]].
  - unfold request_final. cbv zeta. rewrite N, B.
    apply (proj1 (proj2 (proj2 (run_timers_frame _)))).
  - unfold request_final. cbv zeta. rewrite N, B. intros I.
    apply run_timers_aborted in I. destruct I as [I | (t & I & E)].
    + cbn in I. destruct W as [A _]. apply A in I. lia.
    + cbn in I. apply filter_In in I. destruct I as [I Ne]. apply in_app_or in I.
      destruct I as [I | [<- | []]].
      * destruct W as [_ T]. apply T in I. rewrite E in I. lia.
      * cbn [timer_id] in Ne. rewrite Nat.eqb_refl in Ne. discriminate.
Qed.

(** ** The parameters of the remaining operations *)

(** X14. The body of each of the two POST and the two DELETE operations,
    read back, is exactly: the identifier (or the joined identifiers) and,
    for the two POST operations, the frequency and the retailer filter
    when it is given and not empty. *)
Theorem bodies_read_back
    (identifier frequency : string) (identifiers : list string) (options : Options) :
  (exists b, scheduleProductMonitoring identifier frequency options
             = request "/products/schedule"
                 {| init_method := Some "POST"; init_body := Some b; init_headers := None |} /\
             JSON_parse_object b =
             Some (("identifier", identifier) :: ("frequency", frequency)
                     :: given "retailer" (retailer options))) /\
  (exists b, scheduleProductMonitoringBatch identifiers frequency options
             = request "/products/schedule"
                 {| init_method := Some "POST"; init_body := Some b; init_headers := None |} /\
             JSON_parse_object b =
             Some (("identifiers", String.concat "," identifiers) :: ("frequency", frequency)
                     :: given "retailer" (retailer options))) /\
  (exists b, removeProductFromSchedule identifier
             = request "/products/schedule"
                 {| init_method := Some "DELETE"; init_body := Some b; init_headers := None |} /\
             JSON_parse_object b = Some [("identifier", identifier)]) /\
  (exists b, removeProductsFromSchedule identifiers
             = request "/products/schedule"
                 {| init_method := Some "DELETE"; init_body := Some b; init_headers := None |} /\
             JSON_parse_object b = Some [("identifiers", String.concat "," identifiers)]).
Proof.
  split; [|split; [|split]]; eexists; (split; [reflexivity|]); rewrite JSON_parse_stringify.
  - now rewrite scheduleProductMonitoring_entries.
  - now rewrite scheduleProductMonitoringBatch_entries, join_concat.
  - reflexivity.
  - unfold removeProductsFromSchedule_body. now rewrite join_concat.
Qed.

(** X15. The query string of each of the two batch lookups, read back, is
    exactly: the key [identifiers] with the joined identifiers, then
    [retailer] (for the offers) and [format], each when it is given and
    not empty. *)
Theorem batch_queries_read_back (identifiers : list string) (options : Options) :
  (exists q, getProductDetailsBatch identifiers options
             = request ("/products/details?" ++ q) no_init /\
             parse_query q =
             ("identifiers", String.concat "," identifiers) :: given "format" (format options)) /\
  (exists q, getCurrentOffersBatch identifiers options
             = request ("/products/offers?" ++ q) no_init /\
             parse_query q =
             (("identifiers", String.concat "," identifiers)
                :: given "retailer" (retailer options) ++ given "format" (format options))%list).
Proof.
  split; eexists; (split; [reflexivity|]); rewrite parse_query_toString.
  - now rewrite getProductDetailsBatch_entries, join_concat.
  - now rewrite getCurrentOffersBatch_entries, join_concat.
Qed.

Lemma join_comma_pair (x y : string) : join "," [x ++ "," ++ y] = join "," [x; y].
Proof. now rewrite !join_concat. Qed.

(** X16. The identifiers of a batch are joined with commas and a comma
    inside an identifier is not escaped: a batch of the one identifier
    [x,y] is the same call as a batch of the two identifiers [x] and [y],
    in each of the four batch operations. *)
Theorem comma_in_identifier_splits_it (x y frequency : string) (options : Options) :
  getProductDetailsBatch [x ++ "," ++ y] options = getProductDetailsBatch [x; y] options /\
  getCurrentOffersBatch [x ++ "," ++ y] options = getCurrentOffersBatch [x; y] options /\
  scheduleProductMonitoringBatch [x ++ "," ++ y] frequency options
  = scheduleProductMonitoringBatch [x; y] frequency options /\
  removeProductsFromSchedule [x ++ "," ++ y] = removeProductsFromSchedule [x; y].
Proof.
  unfold getProductDetailsBatch, getCurrentOffersBatch, scheduleProductMonitoringBatch,
    removeProductsFromSchedule, getProductDetailsBatch_params, getCurrentOffersBatch_params,
    scheduleProductMonitoringBatch_body, removeProductsFromSchedule_body.
  rewrite join_comma_pair. repeat split.
Qed.

Lemma body_of_request (e e' : string) (m m' : option string) (b b' : string) s :
  req_body (request_sent e {| init_method := m; init_body := Some b; init_headers := None |} s)
  = req_body (request_sent e' {| init_method := m'; init_body := Some b';
                                 init_headers := None |} s) ->
  b = b'.
Proof. unfold request_sent, fetch_arg. cbn [req_body init_body]. congruence. Qed.

(** X17. The body of a request tells the arguments of the call: when two
    calls that schedule the monitoring of a product send requests with
    the same body, they have the same identifier, the same frequency and
    the same retailer filter, an empty one counting as none; when two
    calls that remove a product from the schedule do, they have the same
    identifier. *)
Theorem arguments_are_read_from_the_request
    (i fq i' fq' : string) (o o' : Options) s (req req' : Request) :
  handles_ok s ->
  (adds s (snd (scheduleProductMonitoring i fq o s)) [req] ->
   adds s (snd (scheduleProductMonitoring i' fq' o' s)) [req'] ->
   req_body req = req_body req' ->
   i = i' /\ fq = fq' /\ nonempty (retailer o) = nonempty (retailer o')) /\
  (adds s (snd (removeProductFromSchedule i s)) [req] ->
   adds s (snd (removeProductFromSchedule i' s)) [req'] ->
   req_body req = req_body req' ->
   i = i').
Proof.
  intros W. split; intros A A' E.
  - apply (adds_same (request_adds _ _ W)) in A, A'.
    injection A as <-. injection A' as <-.
    apply body_of_request in E. apply JSON_stringify_inj in E.
    rewrite !scheduleProductMonitoring_entries in E.
    injection E as -> -> E. repeat split.
    unfold given in E. destruct (nonempty (retailer o)), (nonempty (retailer o'));
      try discriminate; [injection E as ->|]; reflexivity.
  - apply (adds_same (request_adds _ _ W)) in A, A'.
    injection A as <-. injection A' as <-.
    apply body_of_request in E. apply JSON_stringify_inj in E. now injection E.
Qed.

(** ** From the configuration to the request *)

(** X18. What the constructor stored is what every later call uses: after
    the construction with a key of the format and any sequence of calls,
    an operation sends its request to the configured base address (the
    production endpoint when none, or the empty string, was given)
    followed by its route, with the key in the [Authorization] header; and
    when nothing comes, the message of the timeout has the configured
    timeout (30000 when none, or 0, was given). *)
Theorem configuration_reaches_the_request
    config (s0 : State) (k : string) (calls : list Call) (c : Call) :
  handles_ok s0 ->
  config_apiKey config = Some k ->
  key_pattern k ->
  exists req,
    adds (run_calls calls (snd (createShopSavvyClient config s0)))
         (snd (perform c (run_calls calls (snd (createShopSavvyClient config s0))))) [req] /\
    (exists q, req_url req =
               or_str (config_baseUrl config) "https://api.shopsavvy.com/v1"
                 ++ snd (fst (route c)) ++ q) /\
    lookup "Authorization" (req_headers req) = Some ("Bearer " ++ k) /\
    (network s0 req = Silent ->
     fst (perform c (run_calls calls (snd (createShopSavvyClient config s0)))) =
     Rejected (new_Error ("Request timeout after "
                            ++ ToString_num (or_num (config_timeout config) (num_lit 30000))
                            ++ "ms"))).
Proof.
  intros W0 K P.
  set (s := run_calls calls (snd (createShopSavvyClient config s0))).
  assert (W : handles_ok s).
  { apply run_calls_handles_ok. now apply createShopSavvyClient_handles_ok. }
  assert (T : this s = instance_of config).
  { unfold s. rewrite run_calls_this, createShopSavvyClient_eq. reflexivity. }
  assert (N : network s = network s0).
  { unfold s. rewrite run_calls_network, createShopSavvyClient_eq. reflexivity. }
  exists (request_sent (call_endpoint c) (call_options c) s).
  rewrite perform_request. split; [now apply request_adds|].
  split; [|split].
  - unfold request_sent, fetch_arg. cbn [req_url]. rewrite T. cbn [baseUrl instance_of ToString_str].
    destruct c; cbn [call_endpoint route fst snd];
      first [ now exists "" | eexists; reflexivity ].
  - unfold request_sent, fetch_arg. cbn [req_headers]. rewrite call_options_headers, T.
    unfold default_headers, instance_of. cbn [apiKey]. rewrite K. reflexivity.
  - intros S. rewrite (request_outcome _ _ W), N, S. cbn [request_result].
    unfold timeout_error. rewrite T. reflexivity.
Qed.


End ClientCoverage.

(** * Examples *)

Lemma example_state_handles_ok (net : Request -> @Transport Z) : handles_ok (example_state net).
Proof. apply createShopSavvyClient_handles_ok, initial_handles_ok. Qed.

Example product_details_resolve :
  fst (getProductDetails "012345678901" no_options (example_state (answers (reply_200 test_product))))
  = Resolved test_product.
Proof. reflexivity. Qed.

Example product_not_found :
  fst (getProductDetails "012345678901" no_options
         (example_state (answers (reply_404 (JObj [("error", JStr "Product not found")])))))
  = Rejected (new_Error "Product not found").
Proof. reflexivity. Qed.

Example no_answer_times_out :
  fst (getProductDetails "012345678901" no_options (example_state never_answers))
  = Rejected (new_Error "Request timeout after 50ms").
Proof. reflexivity. Qed.

Example null_error_body :
  fst (getUsage (example_state (answers (reply_404 JNull))))
  = Rejected (new_TypeError "Cannot read properties of null (reading 'error')").
Proof. reflexivity. Qed.

Example object_error_body :
  fst (getUsage (example_state
                   (answers (reply_404 (JObj [("error", JObj [("code", JNum 42%Z)])])))))
  = Rejected (new_Error "[object Object]").
Proof. reflexivity. Qed.

Example own_toString_error_body :
  fst (getUsage (example_state
                   (answers (reply_404 (JObj [("error", JObj [("toString", JStr "x")])])))))
  = Rejected (new_TypeError "Cannot convert object to primitive value").
Proof. reflexivity. Qed.

Example stalled_body_never_ends :
  fst (getUsage (example_state (answers {| status := 200; statusText := "OK";
                                            body := BodyStalls |})))
  = Pending.
Proof. reflexivity. Qed.

Example documented_key_is_refused :
  fst (createShopSavvyClient
         {| config_apiKey := Some "ss_test_valid_key"; config_baseUrl := None;
            config_timeout := @None Z |} (initial never_answers))
  = Rejected key_invalid.
Proof. reflexivity. Qed.

Example offers_query :
  URLSearchParams_toString
    (getCurrentOffers_params "a b&c" {| retailer := Some "amazon"; format := Some "json" |})
  = "identifier=a+b%26c&retailer=amazon&format=json".
Proof. reflexivity. Qed.

(** ** Witnesses *)

Lemma construction_validates_key_witness :
  (exists self, fst (createShopSavvyClient example_config (initial never_answers))
                = Resolved self) /\
  (exists e, fst (createShopSavvyClient
                    {| config_apiKey := Some "invalid_key_format"; config_baseUrl := None;
                       config_timeout := @None Z |} (initial never_answers)) = Rejected e /\
             configuration_error e).
Proof.
  split.
  - apply (construction_validates_key example_config (initial never_answers)).
    exists "ss_test_abc123". split; [reflexivity|].
    exists "test", "abc123". repeat split; [now right | discriminate].
  - apply (construction_validates_key
             {| config_apiKey := Some "invalid_key_format"; config_baseUrl := None;
                config_timeout := @None Z |} (initial never_answers)).
    intros (k & E & K). injection E as <-. apply String_match_key_pattern in K. discriminate.
Defined.

Lemma error_status_message_witness :
  fst (getUsage
         (example_state (answers (reply_404 (JObj [("error", JStr "Product not found")])))))
  = Rejected (new_Error "Product not found") /\
  fst (getUsage (example_state (answers (reply_404 (JObj [("error", JStr "")])))))
  = Rejected (new_Error "HTTP 404: Not Found").
Proof.
  unfold getUsage.
  split.
  - apply (@error_status_message Z _ "/usage" no_init
             (example_state (answers (reply_404 (JObj [("error", JStr "Product not found")]))))
             (reply_404 (JObj [("error", JStr "Product not found")]))
             (JObj [("error", JStr "Product not found")]));
      [apply example_state_handles_ok | reflexivity | right; cbn; lia | reflexivity
      | reflexivity | discriminate].
  - apply (@error_status_message Z _ "/usage" no_init
             (example_state (answers (reply_404 (JObj [("error", JStr "")]))))
             (reply_404 (JObj [("error", JStr "")]))
             (JObj [("error", JStr "")]));
      [apply example_state_handles_ok | reflexivity | right; cbn; lia | reflexivity
      | discriminate | reflexivity].
Defined.

Lemma timeout_rejects_and_aborts_witness :
  fst (getUsage (example_state never_answers))
  = Rejected (new_Error "Request timeout after 50ms") /\
  In 0 (aborted (snd (getUsage (example_state never_answers)))) /\
  timers (snd (getUsage (example_state never_answers))) = [].
Proof.
  unfold getUsage.
  destruct (@timeout_rejects_and_aborts Z _ "/usage" no_init (example_state never_answers) 50%Z
              (example_state_handles_ok never_answers) eq_refl eq_refl)
    as (E & A & _ & _).
  split; [exact E | split; [exact A | reflexivity]].
Defined.

Lemma success_resolves_with_envelope_witness :
  fst (getUsage (example_state (answers (reply_200 failed_envelope))))
  = Resolved failed_envelope.
Proof.
  unfold getUsage.
  apply (@success_resolves_with_envelope Z _ "/usage" no_init
           (example_state (answers (reply_200 failed_envelope)))
           (reply_200 failed_envelope) failed_envelope);
    [apply example_state_handles_ok | reflexivity | cbn; lia | reflexivity].
Defined.

Lemma timer_cleared_on_every_exit_witness :
  In (EvClearTimeout 1)
     (trace (snd (getUsage (example_state (answers (reply_200 test_product)))))) /\
  In (EvClearTimeout 1)
     (trace (snd (getUsage (example_state never_answers)))) /\
  In (EvClearTimeout 1)
     (trace (snd (getUsage
                    (example_state (fun _ => Fails (new_TypeError "fetch failed")))))).
Proof.
  unfold getUsage.
  repeat split.
  - apply (@timer_cleared_on_every_exit Z _ "/usage" no_init
             (example_state (answers (reply_200 test_product)))).
    apply example_state_handles_ok.
  - apply (@timer_cleared_on_every_exit Z _ "/usage" no_init (example_state never_answers)).
    apply example_state_handles_ok.
  - apply (@timer_cleared_on_every_exit Z _ "/usage" no_init
             (example_state (fun _ => Fails (new_TypeError "fetch failed")))).
    apply example_state_handles_ok.
Defined.

Lemma optional_parameters_when_nonempty_witness :
  (exists q, getCurrentOffers (number := Z) "012345678901"
               {| retailer := Some "amazon"; format := None |}
             = request ("/products/offers?" ++ q) no_init /\
             lookup "retailer" (parse_query q) = Some "amazon" /\
             lookup "format" (parse_query q) = None) /\
  (exists b o, scheduleProductMonitoring (number := Z) "012345678901" "daily"
                 {| retailer := Some ""; format := None |}
               = request "/products/schedule"
                   {| init_method := Some "POST"; init_body := Some b; init_headers := None |} /\
               JSON_parse_object b = Some o /\
               lookup "retailer" o = None).
Proof.
  split.
  - destruct (@optional_parameters_when_nonempty Z _ "012345678901" "" "" "daily" []
                {| retailer := Some "amazon"; format := None |})
      as (_ & _ & (q & E & R & F) & _).
    exists q. split; [exact E | split; [exact R | exact F]].
  - destruct (@optional_parameters_when_nonempty Z _ "012345678901" "" "" "daily" []
                {| retailer := Some ""; format := None |})
      as (_ & _ & _ & _ & _ & (b & o & E & P & R) & _).
    exists b, o. split; [exact E | split; [exact P | exact R]].
Defined.

Lemma single_identifier_query_witness :
  exists q, getPriceHistory (number := Z) "012345678901" "2024-01-01" "2024-01-31"
              {| retailer := Some "best buy"; format := Some "json" |}
            = request ("/products/history?" ++ q) no_init /\
            parse_query q =
            [("identifier", "012345678901"); ("start_date", "2024-01-01");
             ("end_date", "2024-01-31"); ("retailer", "best buy"); ("format", "json")].
Proof.
  destruct (@single_identifier_query Z _ "012345678901" "2024-01-01" "2024-01-31"
              {| retailer := Some "best buy"; format := Some "json" |})
    as (_ & _ & (q & E & P)).
  exists q. split; [exact E | exact P].
Defined.

Lemma batch_identifiers_comma_joined_witness :
  (exists q, getProductDetailsBatch (number := Z) ["012345678901"; "B08N5WRWNW"] no_options
             = request ("/products/details?" ++ q) no_init /\
             lookup "identifiers" (parse_query q) = Some "012345678901,B08N5WRWNW" /\
             count_key "identifiers" (parse_query q) = 1 /\
             has_key "identifier" (parse_query q) = false) /\
  split_on "," (join "," ["012345678901"; "B08N5WRWNW"]) = ["012345678901"; "B08N5WRWNW"].
Proof.
  destruct (@batch_identifiers_comma_joined Z _ ["012345678901"; "B08N5WRWNW"] "daily" no_options)
    as ((q & E & L & C & K) & _ & _ & _ & S).
  split.
  - exists q. split; [exact E | split; [exact L | split; [exact C | exact K]]].
  - apply S; [discriminate | repeat constructor].
Defined.

Lemma falsy_configuration_defaults_witness :
  createShopSavvyClient
    {| config_apiKey := Some "ss_live_abc123"; config_baseUrl := Some "";
       config_timeout := Some 0%Z |} (initial never_answers)
  = (Resolved {| apiKey := Some "ss_live_abc123"; baseUrl := Some "https://api.shopsavvy.com/v1";
                 timeout := Some 30000%Z |},
     set_this {| apiKey := Some "ss_live_abc123"; baseUrl := Some "https://api.shopsavvy.com/v1";
                 timeout := Some 30000%Z |} (initial never_answers)).
Proof.
  destruct (@falsy_configuration_defaults Z _ (Some "ss_live_abc123") None None
              (initial never_answers)) as (_ & _ & R & _).
  apply (R "ss_live_abc123" eq_refl).
  exists "live", "abc123". repeat split; [now left | discriminate].
Defined.

(** ** Where the specification says more than the code does *)

(** A 404 whose body is [{"error": ""}]: the message is the status line,
    not the empty string. *)
Lemma empty_error_field_counterexample :
  ~ error_field_is_message "/usage" no_init
      (example_state (answers (reply_404 (JObj [("error", JStr "")])))).
Proof.
  intros C.
  destruct (C (reply_404 (JObj [("error", JStr "")])) [("error", JStr "")] "")
    as (e & E & Me); [reflexivity | right; cbn; lia | reflexivity | reflexivity |].
  vm_compute in E. injection E as <-. discriminate Me.
Qed.

(** A retailer filter that is the empty string is supplied, and is left
    out of the query string and of the body: the request is the one of a
    call without the option. *)
Lemma empty_retailer_counterexample :
  ~ included_iff_supplied "retailer" (Some "")
      (parse_query
         (URLSearchParams_toString
            (getCurrentOffers_params "012345678901" {| retailer := Some ""; format := None |}))) /\
  (exists o,
     JSON_parse_object
       (JSON_stringify
          (scheduleProductMonitoring_body "012345678901" "daily"
             {| retailer := Some ""; format := None |})) = Some o /\
     ~ included_iff_supplied "retailer" (Some "") o) /\
  getCurrentOffers (number := Z) "012345678901" {| retailer := Some ""; format := None |}
  = getCurrentOffers "012345678901" no_options.
Proof.
  split; [|split].
  - intros [_ C]. assert (N : Some "" <> @None string) by discriminate.
    apply C in N. discriminate N.
  - eexists. split; [reflexivity|].
    intros [_ C]. assert (N : Some "" <> @None string) by discriminate.
    apply C in N. discriminate N.
  - reflexivity.
Qed.

(** The price history asked with an empty retailer filter: the query
    string has no [retailer]. *)
Lemma price_history_empty_retailer_counterexample :
  ~ query_as_supplied "012345678901" {| retailer := Some ""; format := None |}
      (URLSearchParams_toString
         (getPriceHistory_params "012345678901" "2024-01-01" "2024-01-31"
            {| retailer := Some ""; format := None |})).
Proof.
  intros (_ & _ & [_ C] & _). assert (N : Some "" <> @None string) by discriminate.
  apply C in N. discriminate N.
Qed.

(** ** Further instances *)

Lemma prefixed_key_outside_alphabet_refused_witness :
  fst (createShopSavvyClient
         {| config_apiKey := Some "ss_test_valid_key"; config_baseUrl := None;
            config_timeout := @None Z |} (initial never_answers))
  = Rejected key_invalid.
Proof.
  exact (@prefixed_key_outside_alphabet_refused Z _ "test" "valid_key" None None
           (initial never_answers) (or_intror eq_refl) eq_refl).
Defined.

Lemma operations_send_default_headers_witness :
  exists req rest,
    adds (example_state never_answers)
         (snd (perform (GetProductDetails "012345678901" no_options)
                 (example_state never_answers))) [req] /\
    req_headers req =
      [ ("Authorization", "Bearer ss_test_abc123");
        ("Content-Type", "application/json");
        ("User-Agent", "ShopSavvy-TypeScript-SDK/1.0.0") ] /\
    req_signal req = Some 0 /\
    ~ In 0 (aborted (example_state never_answers)) /\
    trace (before_fetch (example_state never_answers)) = [EvSetTimeout 1 (Some 50%Z)] /\
    trace (snd (perform (GetProductDetails "012345678901" no_options)
                  (example_state never_answers)))
    = (trace (before_fetch (example_state never_answers)) ++ EvFetch req :: rest)%list /\
    fetches rest = [] /\
    signal_aborted (req_signal req) (before_fetch (example_state never_answers)) = false.
Proof.
  exact (@operations_send_default_headers Z _ (GetProductDetails "012345678901" no_options)
           (example_state never_answers) "ss_test_abc123"
           (example_state_handles_ok never_answers) eq_refl).
Defined.

Lemma caller_headers_override_witness :
  exists req,
    adds (example_state never_answers)
         (snd (request "/usage"
                 {| init_method := None; init_body := None;
                    init_headers := Some [("User-Agent", "probe"); ("X-Trace", "1")] |}
                 (example_state never_answers))) [req] /\
    lookup "User-Agent" (req_headers req) = Some "probe".
Proof.
  exact (@caller_headers_override Z _ "/usage"
           {| init_method := None; init_body := None;
              init_headers := Some [("User-Agent", "probe"); ("X-Trace", "1")] |}
           [("User-Agent", "probe"); ("X-Trace", "1")]
           (example_state never_answers) "User-Agent"
           (example_state_handles_ok never_answers) eq_refl).
Defined.

Lemma operation_routes_witness :
  exists req,
    adds (example_state never_answers)
         (snd (perform (RemoveProductFromSchedule "012345678901")
                 (example_state never_answers))) [req] /\
    req_method req = Some "DELETE" /\
    (req_body req = None <-> Some "DELETE" = @None string) /\
    exists q,
      req_url req = "https://api.shopsavvy.com/v1" ++ "/products/schedule" ++ q /\ q = "".
Proof.
  exact (@operation_routes Z _ (RemoveProductFromSchedule "012345678901")
           (example_state never_answers) "https://api.shopsavvy.com/v1"
           (example_state_handles_ok never_answers) eq_refl).
Defined.

Lemma one_fetch_per_call_witness :
  List.length
    (fetches (trace (run_calls [GetUsage; GetProductDetailsBatch ["a"; "b"; "c"] no_options]
                       (example_state never_answers))))
  = 2.
Proof.
  exact (proj2 (@one_fetch_per_call Z _
                  [GetUsage; GetProductDetailsBatch ["a"; "b"; "c"] no_options]
                  (example_state never_answers) (example_state_handles_ok never_answers))).
Defined.

Lemma no_timer_left_after_calls_witness :
  timers (run_calls [GetUsage; GetScheduledProducts] (example_state slow_usage)) = [].
Proof.
  exact (@no_timer_left_after_calls Z _ [GetUsage; GetScheduledProducts]
           (example_state slow_usage) (example_state_handles_ok slow_usage) eq_refl).
Defined.

Lemma calls_do_not_interfere_witness :
  fst (perform GetUsage (example_state slow_usage))
  = Rejected (new_Error "Request timeout after 50ms") /\
  fst (perform GetScheduledProducts (run_calls [GetUsage] (example_state slow_usage)))
  = Resolved test_product.
Proof.
  split; [reflexivity|].
  refine (proj2 (@calls_do_not_interfere Z _ [GetUsage] GetScheduledProducts
                   (example_state slow_usage) (reply_200 test_product) test_product
                   (example_state_handles_ok slow_usage))
            eq_refl _ eq_refl).
  cbn. lia.
Defined.

Lemma other_errors_propagate_witness :
  fst (request "/usage" no_init
         (example_state (answers {| status := 500; statusText := "Internal Server Error";
                                    body := BodyInvalid
                                              {| name := "SyntaxError";
                                                 message := "Unexpected token" |} |})))
  = Rejected {| name := "SyntaxError"; message := "Unexpected token" |}.
Proof.
  refine (proj2 (@other_errors_propagate Z _ "/usage" no_init
                   (example_state (answers {| status := 500;
                                              statusText := "Internal Server Error";
                                              body := BodyInvalid
                                                        {| name := "SyntaxError";
                                                           message := "Unexpected token" |} |}))
                   {| name := "SyntaxError"; message := "Unexpected token" |}
                   (example_state_handles_ok _) _) _ eq_refl eq_refl).
  discriminate.
Defined.

Lemma abort_named_error_reported_as_timeout_witness :
  fst (request "/usage" no_init (example_state (fun _ => Fails AbortError)))
  = Rejected (new_Error "Request timeout after 50ms") /\
  ~ In 0 (aborted (snd (request "/usage" no_init (example_state (fun _ => Fails AbortError))))).
Proof.
  exact (@abort_named_error_reported_as_timeout Z _ "/usage" no_init
           (example_state (fun _ => Fails AbortError)) AbortError
           (example_state_handles_ok _) eq_refl eq_refl).
Defined.

Lemma null_error_body_type_error_witness :
  fst (request "/usage" no_init (example_state (answers (reply_404 JNull))))
  = Rejected (new_TypeError "Cannot read properties of null (reading 'error')").
Proof.
  refine (@null_error_body_type_error Z _ "/usage" no_init
            (example_state (answers (reply_404 JNull))) (reply_404 JNull)
            (example_state_handles_ok _) eq_refl _ eq_refl).
  right. cbn. lia.
Defined.

Lemma truthy_error_is_printed_witness :
  fst (request "/usage" no_init
         (example_state
            (answers (reply_404 (JObj [("error", JObj [("toString", JNum 42%Z)])])))))
  = Rejected (new_TypeError "Cannot convert object to primitive value").
Proof.
  refine (proj1 (proj2 (@truthy_error_is_printed Z _ "/usage" no_init
                   (example_state
                      (answers (reply_404 (JObj [("error", JObj [("toString", JNum 42%Z)])]))))
                   (reply_404 (JObj [("error", JObj [("toString", JNum 42%Z)])]))
                   (JObj [("error", JObj [("toString", JNum 42%Z)])])
                   (JObj [("toString", JNum 42%Z)])
                   (example_state_handles_ok _) eq_refl _ eq_refl eq_refl eq_refl)) eq_refl).
  right. cbn. lia.
Defined.

Lemma stalled_body_is_not_timed_out_witness :
  fst (request "/usage" no_init
         (example_state (answers {| status := 200; statusText := "OK"; body := BodyStalls |})))
  = Pending /\
  timers (snd (request "/usage" no_init
                 (example_state (answers {| status := 200; statusText := "OK";
                                            body := BodyStalls |})))) = [].
Proof.
  destruct (@stalled_body_is_not_timed_out Z _ "/usage" no_init
              (example_state (answers {| status := 200; statusText := "OK";
                                         body := BodyStalls |}))
              {| status := 200; statusText := "OK"; body := BodyStalls |}
              (example_state_handles_ok _) eq_refl eq_refl) as (P & T & _).
  exact (conj P T).
Defined.

Lemma arguments_are_read_from_the_request_witness :
  "012345678901" = "012345678901" /\ "daily" = "daily" /\
  nonempty (retailer {| retailer := Some ""; format := None |}) = nonempty (retailer no_options).
Proof.
  refine (proj1 (@arguments_are_read_from_the_request Z _
                   "012345678901" "daily" "012345678901" "daily"
                   {| retailer := Some ""; format := None |} no_options
                   (example_state never_answers)
                   (request_sent "/products/schedule"
                      {| init_method := Some "POST";
                         init_body :=
                           Some (JSON_stringify
                                   [("identifier", "012345678901"); ("frequency", "daily")]);
                         init_headers := None |} (example_state never_answers))
                   (request_sent "/products/schedule"
                      {| init_method := Some "POST";
                         init_body :=
                           Some (JSON_stringify
                                   [("identifier", "012345678901"); ("frequency", "daily")]);
                         init_headers := None |} (example_state never_answers))
                   (example_state_handles_ok never_answers)) _ _ eq_refl).
  - eexists. split; reflexivity.
  - eexists. split; reflexivity.
Defined.

Lemma configuration_reaches_the_request_witness :
  exists req,
    adds (run_calls [GetUsage] (snd (createShopSavvyClient example_config (initial never_answers))))
         (snd (perform GetScheduledProducts
                 (run_calls [GetUsage]
                    (snd (createShopSavvyClient example_config (initial never_answers))))))
         [req] /\
    (exists q, req_url req = "https://api.shopsavvy.com/v1" ++ "/products/scheduled" ++ q) /\
    lookup "Authorization" (req_headers req) = Some "Bearer ss_test_abc123" /\
    (never_answers req = Silent ->
     fst (perform GetScheduledProducts
            (run_calls [GetUsage]
               (snd (createShopSavvyClient example_config (initial never_answers)))))
     = Rejected (new_Error "Request timeout after 50ms")).
Proof.
  assert (P : key_pattern "ss_test_abc123").
  { exists "test", "abc123". repeat split; [now right | discriminate]. }
  exact (@configuration_reaches_the_request Z _ example_config (initial never_answers)
           "ss_test_abc123" [GetUsage] GetScheduledProducts
           (initial_handles_ok never_answers) eq_refl P).
Defined.
